(** * Domain research pipeline: a shallow embedding of the research
    backend ([research_backend.py]) and of the job registry of the web layer
    ([app.py]), with the properties the specification states about them.

    Conventions.
    - Python values that come out of [response.json()] are values of [json].
    - A [string] stands for a Python [str] through its UTF-8 bytes. The
      tests the code makes on strings look for ASCII text (["www."], ["."],
      a dictionary key), and on UTF-8 those agree with the same tests on
      code points. [str.lower], which follows the Unicode tables, is a
      parameter of the development; [str.strip] is modelled for ASCII
      white space (see [Upload]).
    - Code that can raise returns [res A]; [try_except] is Python's
      [try: ... except Exception: ...], which lets [CancelledError] through.
    - Time is a number of microseconds (the resolution of [datetime]).
    - The asynchronous parts are modelled as the cooperative scheduler runs
      them: a step is the code between two suspension points. *)

From Stdlib Require Import ZArith String Ascii List Bool Lia DecimalString.
From stdpp Require Import gmap strings list fin_maps.

#[local] Set Warnings "-register-all,-clear-no-such-hyp".
Local Open Scope string_scope.
Local Open Scope list_scope.
Local Open Scope Z_scope.

(** ** Exceptions and fallible code *)

Module Py.

Inductive exn_class :=
  | TypeError | ValueError | KeyError | AttributeError | IndexError
  | TimeoutError | RuntimeError | CancelledError.

Record exn := Exn { cls : exn_class; msg : string }.

(** [isinstance(e, Exception)]: [asyncio.CancelledError] derives from
    [BaseException] and is not caught by [except Exception]. *)
Definition is_Exception (e : exn) : bool :=
  match cls e with CancelledError => false | _ => true end.

Inductive res (A : Type) : Type :=
  | Ok (a : A)
  | Raise (e : exn).
Arguments Ok {A} a.
Arguments Raise {A} e.

Definition bind {A B} (c : res A) (k : A → res B) : res B :=
  match c with
  | Ok a => k a
  | Raise e => Raise e
  end.

(** [try: c  except Exception as e: h e] *)
Definition try_except {A} (c : res A) (h : exn → res A) : res A :=
  match c with
  | Ok a => Ok a
  | Raise e => if is_Exception e then h e else Raise e
  end.

(** Code that raises nothing outside [Exception]. *)
Definition ordinary {A} (c : res A) : Prop :=
  match c with
  | Ok _ => True
  | Raise e => is_Exception e = true
  end.

End Py.
Import Py.

Notation "'let!' x ':=' c 'in' k" := (Py.bind c (fun x => k))
  (at level 10, x name, c at level 100, k at level 200).

(** ** Strings *)

Module Str.

(** [str.lower] follows the Unicode case tables of the interpreter, so
    the code that calls it is modelled over a function
    [str_lower : string → string] that stands for it. Two facts about
    [str.lower] are used, and only where a statement says so: lowering is
    idempotent, and what follows the prefix ["www."] of a lowercase string
    is lowercase. *)
Definition is_lower (str_lower : string → string) (s : string) : Prop :=
  str_lower s = s.

Record lower_laws (str_lower : string → string) : Prop := {
  lower_idempotent : ∀ s, is_lower str_lower (str_lower s);
  lower_after_www : ∀ s,
    is_lower str_lower ("www." +:+ s) → is_lower str_lower s
}.

(** [str.lower] as it acts on ASCII text: the letters A..Z move to a..z,
    every other byte stays. It is the instance at which examples are
    evaluated; it is [str.lower] on the strings that have no byte above
    127. *)
Definition lower_ascii (c : ascii) : ascii :=
  let n := nat_of_ascii c in
  if ((65 <=? n) && (n <=? 90))%nat then ascii_of_nat (n + 32) else c.

Fixpoint lower (s : string) : string :=
  match s with
  | EmptyString => EmptyString
  | String c s' => String (lower_ascii c) (lower s')
  end.

(** [s.startswith(p)] *)
Definition startswith (p s : string) : bool := String.prefix p s.

(** [s[n:]] *)
Fixpoint drop (n : nat) (s : string) : string :=
  match n, s with
  | O, _ => s
  | S n', EmptyString => EmptyString
  | S n', String _ s' => drop n' s'
  end.

(** [sub in s] on strings: substring test. *)
Fixpoint contains (sub s : string) : bool :=
  String.prefix sub s ||
  match s with
  | EmptyString => false
  | String _ s' => contains sub s'
  end.

Definition nonempty (s : string) : bool :=
  match s with EmptyString => false | _ => true end.

(** [str(n)] for an integer. *)
Definition of_Z (n : Z) : string := NilZero.string_of_int (Z.to_int n).

(** The pieces a [for] loop over a string visits, one per byte here: the
    code only asks of each whether it contains a longer text. *)
Fixpoint chars (s : string) : list string :=
  match s with
  | EmptyString => []
  | String c s' => String c EmptyString :: chars s'
  end.

End Str.

(** ** JSON values as Python sees them *)

(** [JObj kv] is a [dict] given by its items in insertion order; a dict has
    one binding per key, and a lookup returns the first one listed. A JSON
    number is kept as an integer: the code below only tests numbers for
    truth and never computes with them. *)
Inductive json :=
  | JNull
  | JBool (b : bool)
  | JNum (n : Z)
  | JStr (s : string)
  | JArr (l : list json)
  | JObj (kv : list (string * json)).

Module Dyn.

Fixpoint assoc (k : string) (kv : list (string * json)) : option json :=
  match kv with
  | [] => None
  | (k', v) :: kv' => if String.eqb k k' then Some v else assoc k kv'
  end.

(** [bool(v)] *)
Definition truthy (v : json) : bool :=
  match v with
  | JNull => false
  | JBool b => b
  | JNum n => negb (n =? 0)
  | JStr s => Str.nonempty s
  | JArr l => match l with [] => false | _ => true end
  | JObj kv => match kv with [] => false | _ => true end
  end.

Definition type_name (v : json) : string :=
  match v with
  | JNull => "NoneType" | JBool _ => "bool" | JNum _ => "int"
  | JStr _ => "str" | JArr _ => "list" | JObj _ => "dict"
  end.

(** [k in v] for a string [k]: key test on a dict, substring test on a
    string, element test on a list, [TypeError] on the rest. *)
Definition contains (k : string) (v : json) : res bool :=
  match v with
  | JObj kv => Ok (match assoc k kv with Some _ => true | None => false end)
  | JStr s => Ok (Str.contains k s)
  | JArr l =>
      Ok (existsb (fun e => match e with JStr s => String.eqb k s | _ => false end) l)
  | _ => Raise (Exn TypeError
                  ("argument of type '" +:+ type_name v +:+ "' is not iterable"))
  end.

(** [v[k]] for a string [k]. *)
Definition getitem (v : json) (k : string) : res json :=
  match v with
  | JObj kv =>
      match assoc k kv with
      | Some x => Ok x
      | None => Raise (Exn KeyError ("'" +:+ k +:+ "'"))
      end
  | JStr _ => Raise (Exn TypeError "string indices must be integers")
  | JArr _ => Raise (Exn TypeError "list indices must be integers or slices, not str")
  | _ => Raise (Exn TypeError ("'" +:+ type_name v +:+ "' object is not subscriptable"))
  end.

(** [for x in v]: the elements of a list, the characters of a string, the
    keys of a dict. *)
Definition iter (v : json) : res (list json) :=
  match v with
  | JArr l => Ok l
  | JStr s => Ok (map JStr (Str.chars s))
  | JObj kv => Ok (map (fun p => JStr (fst p)) kv)
  | _ => Raise (Exn TypeError ("'" +:+ type_name v +:+ "' object is not iterable"))
  end.

(** [v.get(k)]: only a dict has the method. *)
Definition get (v : json) (k : string) : res json :=
  match v with
  | JObj kv => Ok (match assoc k kv with Some x => x | None => JNull end)
  | _ => Raise (Exn AttributeError
                  ("'" +:+ type_name v +:+ "' object has no attribute 'get'"))
  end.

End Dyn.

(** ** Domain extraction ([AsyncDomainResearcher.extract_domains]) *)

Module Extract.

Section WithUrlparse.

(** [s.lower()], and [urllib.parse.urlparse(url).netloc] for a string
    [url], [None] when [urlparse] raises [ValueError]. Neither library is
    part of the repository: the development is parametric in both, and
    [Str.lower] and [Urllib.netloc] are the instances used to evaluate
    examples. *)
Variable str_lower : string → string.
Variable netloc_of : string → option string.

(** [urllib.parse.urlparse(url).netloc.lower()] for any value [url]. For a
    value that is not a string, [urlparse] itself raises or hands back a
    bytes result on which [startswith('www.')] raises: either way the
    statement group of the inner [try] is left by an exception. *)
Definition parsed_netloc_lower (url : json) : res string :=
  match url with
  | JStr s =>
      match netloc_of s with
      | Some n => Ok (str_lower n)
      | None => Raise (Exn ValueError "Invalid URL")
      end
  | _ => Raise (Exn TypeError "a str is required")
  end.

(** The three conditions of [if domain and '.' in domain and not
    domain.startswith('.')]. *)
Definition valid_domain (domain : string) : bool :=
  Str.nonempty domain && Str.contains "." domain
    && negb (Str.startswith "." domain).

Definition strip_www (domain : string) : string :=
  if Str.startswith "www." domain then Str.drop 4 domain else domain.

(** Body of the inner [try] for one [url], acting on the set [domains]. *)
Definition add_url (url : json) (domains : gset string) : res (gset string) :=
  let! domain := parsed_netloc_lower url in
  let domain := strip_www domain in
  if valid_domain domain then Ok ({[ domain ]} ∪ domains) else Ok domains.

(** [for url in urls: try: ... except Exception: continue] *)
Fixpoint add_urls (urls : list json) (domains : gset string) : res (gset string) :=
  match urls with
  | [] => Ok domains
  | url :: rest =>
      let! domains := try_except (add_url url domains) (fun _ => Ok domains) in
      add_urls rest domains
  end.

(** One pass of [for result in search_results['results']]. *)
Definition results_entry (result : json) : res (list json) :=
  let! has_url := Dyn.contains "url" result in
  if has_url then
    let! u := Dyn.getitem result "url" in Ok [u]
  else
    let! has_link := Dyn.contains "link" result in
    if has_link then
      let! u := Dyn.getitem result "link" in Ok [u]
    else Ok [].

(** One pass of [for result in search_results['organic']]. *)
Definition organic_entry (result : json) : res (list json) :=
  let! has_url := Dyn.contains "url" result in
  if has_url then
    let! u := Dyn.getitem result "url" in Ok [u]
  else Ok [].

Fixpoint for_each (f : json → res (list json)) (l : list json) : res (list json) :=
  match l with
  | [] => Ok []
  | x :: l' =>
      let! us := f x in
      let! rest := for_each f l' in
      Ok (us ++ rest)
  end.

(** [if key in search_results: for result in search_results[key]: ...] *)
Definition collect_key (key : string) (f : json → res (list json))
    (search_results : json) : res (list json) :=
  let! present := Dyn.contains key search_results in
  if present then
    let! v := Dyn.getitem search_results key in
    let! entries := Dyn.iter v in
    for_each f entries
  else Ok [].

(** The list [urls] as it stands when the second loop begins. *)
Definition collect_urls (search_results : json) : res (list json) :=
  let! a := collect_key "results" results_entry search_results in
  let! b := collect_key "organic" organic_entry search_results in
  Ok (a ++ b).

Definition extract_domains (search_results : json) : res (gset string) :=
  let domains : gset string := ∅ in
  if negb (Dyn.truthy search_results) then Ok domains
  else
    try_except
      (let! urls := collect_urls search_results in
       add_urls urls domains)
      (fun _ => Ok domains).

(** What one scanned URL contributes to the output set: the domain [d]
    when [url] is a string with a netloc that passes the three tests. *)
Definition accepted (url : json) (d : string) : Prop :=
  ∃ u n, url = JStr u ∧ netloc_of u = Some n ∧
         d = strip_www (str_lower n) ∧ valid_domain d = true.

End WithUrlparse.

(** The response shapes of the search API: the entries under a key, when
    the key is absent ([[]]) or holds an array of objects. *)
Fixpoint all_objects (l : list json) : option (list (list (string * json))) :=
  match l with
  | [] => Some []
  | JObj e :: l' =>
      match all_objects l' with Some es => Some (e :: es) | None => None end
  | _ => None
  end.

Definition field_objects (key : string) (kv : list (string * json))
    : option (list (list (string * json))) :=
  match Dyn.assoc key kv with
  | None => Some []
  | Some (JArr l) => all_objects l
  | Some _ => None
  end.

(** URL scanned for a [results] entry: [url], else [link]. *)
Definition entry_url_or_link (e : list (string * json)) : list json :=
  match Dyn.assoc "url" e with
  | Some u => [u]
  | None => match Dyn.assoc "link" e with Some u => [u] | None => [] end
  end.

(** URL scanned for an [organic] entry: [url]. *)
Definition entry_url (e : list (string * json)) : list json :=
  match Dyn.assoc "url" e with Some u => [u] | None => [] end.

Definition entry_link (e : list (string * json)) : list json :=
  match Dyn.assoc "link" e with Some u => [u] | None => [] end.

(** The specification's reading of the scan: every URL under every
    recognized key, [results[].url], [results[].link] and
    [organic[].url]. *)
Definition spec_urls (rs os : list (list (string * json))) : list json :=
  flat_map (fun e => entry_url e ++ entry_link e) rs ++ flat_map entry_url os.

(** The specification's sentence, for a response object with arrays of
    objects under its keys. *)
Definition spec_extraction (str_lower : string → string)
    (netloc_of : string → option string)
    (search_results : json) : Prop :=
  ∀ kv rs os,
    search_results = JObj kv →
    field_objects "results" kv = Some rs →
    field_objects "organic" kv = Some os →
    ∃ s, extract_domains str_lower netloc_of search_results = Ok s ∧
         ∀ d, d ∈ s ↔ ∃ url, url ∈ spec_urls rs os ∧ accepted str_lower netloc_of url d.

(** A [results] entry that carries both a [url] and a [link]. *)
Definition url_and_link : json :=
  JObj [("results",
         JArr [JObj [("url", JStr "http://a.com/");
                     ("link", JStr "http://b.org/")]])].

(** The example of the specification and one with every recognized key. *)
Definition organic_example : json :=
  JObj [("organic",
         JArr [JObj [("url", JStr "http://www.Example.COM/path")]])].

Definition mixed_example : list (string * json) :=
  [("results",
    JArr [JObj [("url", JStr "https://www.python.org/about")];
          JObj [("link", JStr "http://docs.rs")];
          JObj [("title", JStr "no address")]]);
   ("organic",
    JArr [JObj [("url", JStr "HTTP://WWW.Python.ORG/")];
          JObj [("url", JStr "http://localhost/")]])].

End Extract.

(** ** [urllib.parse.urlsplit], the part that yields [netloc] *)

Module Urllib.

Definition is_c0_or_space (c : ascii) : bool := (nat_of_ascii c <=? 32)%nat.

Fixpoint lstrip_c0 (s : string) : string :=
  match s with
  | String c s' => if is_c0_or_space c then lstrip_c0 s' else s
  | EmptyString => EmptyString
  end.

(** Tab, line feed and carriage return are removed wherever they are. *)
Definition is_unsafe (c : ascii) : bool :=
  let n := nat_of_ascii c in ((n =? 9) || (n =? 10) || (n =? 13))%nat.

Fixpoint remove_unsafe (s : string) : string :=
  match s with
  | EmptyString => EmptyString
  | String c s' => if is_unsafe c then remove_unsafe s' else String c (remove_unsafe s')
  end.

Definition is_alpha (c : ascii) : bool :=
  let n := nat_of_ascii c in
  (((65 <=? n) && (n <=? 90)) || ((97 <=? n) && (n <=? 122)))%nat.

Definition is_scheme_char (c : ascii) : bool :=
  let n := nat_of_ascii c in
  (is_alpha c || ((48 <=? n) && (n <=? 57)) || (n =? 43) || (n =? 45) || (n =? 46))%nat.

(** [Some rest] when [s] is [scheme ++ ":" ++ rest] with [scheme] made of
    scheme characters up to the first colon. *)
Fixpoint after_scheme (s : string) : option string :=
  match s with
  | EmptyString => None
  | String c s' =>
      if Ascii.eqb c ":" then Some s'
      else if is_scheme_char c then after_scheme s' else None
  end.

Definition strip_scheme (url : string) : string :=
  match url with
  | String c _ =>
      if is_alpha c then
        match after_scheme url with Some rest => rest | None => url end
      else url
  | EmptyString => url
  end.

Definition is_delim (c : ascii) : bool :=
  Ascii.eqb c "/" || Ascii.eqb c "?" || Ascii.eqb c "#".

(** [_splitnetloc]: up to the first of [/], [?], [#]. *)
Fixpoint until_delim (s : string) : string :=
  match s with
  | EmptyString => EmptyString
  | String c s' => if is_delim c then EmptyString else String c (until_delim s')
  end.

Fixpoint is_ascii_str (s : string) : bool :=
  match s with
  | EmptyString => true
  | String c s' => (nat_of_ascii c <? 128)%nat && is_ascii_str s'
  end.

(** [netloc] of an ASCII URL without brackets; a host in brackets (an
    IPv6 literal) or a character outside ASCII makes [urlsplit] run
    checks that are not modelled, and is reported as a failure here. *)
Definition netloc (url : string) : option string :=
  let url := remove_unsafe (lstrip_c0 url) in
  let url := strip_scheme url in
  if Str.startswith "//" url then
    let n := until_delim (Str.drop 2 url) in
    if Str.contains "[" n || Str.contains "]" n || negb (is_ascii_str n)
    then None else Some n
  else Some "".

End Urllib.

(** ** [datetime]: the operations the age calculation uses *)

Module Datetime.

(** A [datetime] value. [tzinfo] is [None] for a naive value and holds the
    UTC offset in seconds otherwise; the code only tests it and drops
    it. *)
Record datetime := mk_datetime {
    year : Z; month : Z; day : Z;
    hour : Z; minute : Z; second : Z; microsecond : Z;
    tzinfo : option Z
  }.

(** [dt.replace(tzinfo=None)] *)
Definition replace_tzinfo_None (dt : datetime) : datetime :=
  mk_datetime (year dt) (month dt) (day dt)
              (hour dt) (minute dt) (second dt) (microsecond dt) None.

Definition is_leap (y : Z) : bool :=
  (y mod 4 =? 0) && (negb (y mod 100 =? 0) || (y mod 400 =? 0)).

Definition days_before_year (y : Z) : Z :=
  let y := y - 1 in y * 365 + y / 4 - y / 100 + y / 400.

Definition DAYS_BEFORE_MONTH (m : Z) : Z :=
  match m with
  | 1 => 0 | 2 => 31 | 3 => 59 | 4 => 90 | 5 => 120 | 6 => 151
  | 7 => 181 | 8 => 212 | 9 => 243 | 10 => 273 | 11 => 304 | 12 => 334
  | _ => 0
  end.

Definition days_before_month (y m : Z) : Z :=
  DAYS_BEFORE_MONTH m + (if (2 <? m) && is_leap y then 1 else 0).

(** [date.toordinal] *)
Definition toordinal (dt : datetime) : Z :=
  days_before_year (year dt) + days_before_month (year dt) (month dt) + day dt.

Definition seconds_of_day (dt : datetime) : Z :=
  second dt + minute dt * 60 + hour dt * 3600.

(** [a - b] for two naive values, as a number of microseconds. *)
Definition sub (a b : datetime) : Z :=
  ((toordinal a - toordinal b) * 86400
   + (seconds_of_day a - seconds_of_day b)) * 1000000
  + (microsecond a - microsecond b).

(** [timedelta.days]: a [timedelta] is normalized with its seconds and
    microseconds non-negative, so [days] is the floor. *)
Definition timedelta_days (delta : Z) : Z := delta / 86400000000.

(** [timedelta.total_seconds() > n] for an integer [n]. *)
Definition total_seconds_gt (delta : Z) (n : Z) : bool := n * 1000000 <? delta.

Definition pad2 (n : Z) : string :=
  if n <? 10 then "0" +:+ Str.of_Z n else Str.of_Z n.

(** [dt.strftime("%Y-%m-%d %H:%M:%S")] *)
Definition strftime_ymd_hms (dt : datetime) : string :=
  Str.of_Z (year dt) +:+ "-" +:+ pad2 (month dt) +:+ "-" +:+ pad2 (day dt)
    +:+ " " +:+ pad2 (hour dt) +:+ ":" +:+ pad2 (minute dt)
    +:+ ":" +:+ pad2 (second dt).


End Datetime.
Import Datetime.

(** ** Records produced by the pipeline *)

Record DomainData := mk_DomainData {
  keyword : string;
  domain : string;
  creation_date : string;
  age_days : Z;
  status : string;
  google_string : string;
  age_display : string
  }.

(** [DomainData(keyword, domain, creation_date, age_days, status)] with the
    two defaulted fields. *)
Definition DomainData5 (keyword domain creation_date : string) (age_days : Z)
    (status : string) : DomainData :=
  mk_DomainData keyword domain creation_date age_days status "" "".

(** ** Age calculation and the per-domain pipeline *)

Module Age.

Section WithParsers.

(** [dateutil.parser.parse] and [datetime.strptime] (string, then format);
    [None] when the call raises. Both are library code. *)
Variable date_parser_parse : string → option datetime.
Variable strptime : string → string → option datetime.

(** The chain of three parse attempts. A value that is not a string makes
    each of the three calls raise. *)
Definition parse_creation_date (creation_date_str : json) : option datetime :=
  match creation_date_str with
  | JStr s =>
      match date_parser_parse s with
      | Some d => Some d
      | None =>
          match strptime s "%Y-%m-%d %H:%M:%S" with
          | Some d => Some d
          | None => strptime s "%Y-%m-%d"
          end
      end
  | _ => None
  end.

(** [creation_date_raw[0] if creation_date_raw else None] for a list, the
    value itself otherwise. *)
Definition first_candidate (creation_date_raw : json) : json :=
  match creation_date_raw with
  | JArr l => match l with x :: _ => x | [] => JNull end
  | v => v
  end.

(** Body of the [try] of [calculate_domain_age]. *)
Definition calculate_domain_age_body (now : datetime) (whois_data : json)
    : res (option string * option Z) :=
  let! result := Dyn.getitem whois_data "result" in
  let! creation_date_raw := Dyn.get result "creation_date" in
  if negb (Dyn.truthy creation_date_raw) then Ok (None, None)
  else
    let creation_date_str := first_candidate creation_date_raw in
    if negb (Dyn.truthy creation_date_str) then Ok (None, None)
    else
      match parse_creation_date creation_date_str with
      | None => Ok (None, None)
      | Some creation_date =>
          let current_date := now in
          let creation_date :=
            match tzinfo creation_date with
            | Some _ => replace_tzinfo_None creation_date
            | None => creation_date
            end in
          let age_delta := Datetime.sub current_date creation_date in
          let age_days := timedelta_days age_delta in
          let formatted_date := strftime_ymd_hms creation_date in
          Ok (Some formatted_date, Some age_days)
      end.

(** [calculate_domain_age]; [now] is what [datetime.now()] returns. The
    first test is outside the [try]. *)
Definition calculate_domain_age (now : datetime) (whois_data : json)
    : res (option string * option Z) :=
  if negb (Dyn.truthy whois_data) then Ok (None, None)
  else
    let! has_result := Dyn.contains "result" whois_data in
    if negb has_result then Ok (None, None)
    else
      try_except (calculate_domain_age_body now whois_data)
                 (fun _ => Ok (None, None)).

(** The age string built in [process_domain]. *)
Definition age_display_of (age_days : Z) : string :=
  let age_years := age_days / 365 in
  let remaining_days := age_days mod 365 in
  if 0 <? age_years then
    Str.of_Z age_years +:+ " years, " +:+ Str.of_Z remaining_days +:+ " days"
  else Str.of_Z age_days +:+ " days".

(** [process_domain]; [whois] is the outcome of
    [await self.get_whois_data(domain)], with [JNull] for [None]. *)
Definition process_domain (whois : res json) (now : datetime)
    (domain keyword : string) : res DomainData :=
  try_except
    (let! whois_data := whois in
     if negb (Dyn.truthy whois_data)
     then Ok (DomainData5 keyword domain "N/A" (-1) "WHOIS Failed")
     else
       let! age := calculate_domain_age now whois_data in
       match age with
       | (Some creation_date, Some age_days) =>
           if Str.nonempty creation_date then
             Ok (mk_DomainData keyword domain creation_date age_days
                   "Success" "" (age_display_of age_days))
           else
             Ok (DomainData5 keyword domain "N/A" (-1) "Age Calculation Failed")
       | _ => Ok (DomainData5 keyword domain "N/A" (-1) "Age Calculation Failed")
       end)
    (fun e => Ok (DomainData5 keyword domain "N/A" (-1) ("Error: " +:+ msg e))).

End WithParsers.

(** [datetime.strptime] on the zero-padded spelling of the two formats the
    code asks for, used to evaluate examples. *)
Definition digit (c : ascii) : option Z :=
  let n := nat_of_ascii c in
  if ((48 <=? n) && (n <=? 57))%nat then Some (Z.of_nat n - 48) else None.

Fixpoint number (n : nat) (acc : Z) (s : string) : option (Z * string) :=
  match n with
  | O => Some (acc, s)
  | S n' =>
      match s with
      | String c s' =>
          match digit c with
          | Some d => number n' (acc * 10 + d) s'
          | None => None
          end
      | EmptyString => None
      end
  end.

Definition expect (c : ascii) (s : string) : option string :=
  match s with
  | String c' s' => if Ascii.eqb c c' then Some s' else None
  | EmptyString => None
  end.

Definition days_in_month (y m : Z) : Z :=
  match m with
  | 2 => if is_leap y then 29 else 28
  | 4 | 6 | 9 | 11 => 30
  | _ => 31
  end.

Definition read_date (s : string) : option (Z * Z * Z * string) :=
  match number 4 0 s with
  | Some (y, s) =>
    match expect "-" s with
    | Some s =>
      match number 2 0 s with
      | Some (m, s) =>
        match expect "-" s with
        | Some s =>
          match number 2 0 s with
          | Some (d, s) =>
              if (1 <=? y) && (1 <=? m) && (m <=? 12) && (1 <=? d)
                 && (d <=? days_in_month y m)
              then Some (y, m, d, s) else None
          | None => None
          end
        | None => None
        end
      | None => None
      end
    | None => None
    end
  | None => None
  end.

Definition read_time (s : string) : option (Z * Z * Z * string) :=
  match number 2 0 s with
  | Some (h, s) =>
    match expect ":" s with
    | Some s =>
      match number 2 0 s with
      | Some (mi, s) =>
        match expect ":" s with
        | Some s =>
          match number 2 0 s with
          | Some (se, s) =>
              if (h <=? 23) && (mi <=? 59) && (se <=? 59)
              then Some (h, mi, se, s) else None
          | None => None
          end
        | None => None
        end
      | None => None
      end
    | None => None
    end
  | None => None
  end.

Definition strptime_padded (s fmt : string) : option datetime :=
  if String.eqb fmt "%Y-%m-%d %H:%M:%S" then
    match read_date s with
    | Some (y, m, d, s) =>
        match expect " " s with
        | Some s =>
            match read_time s with
            | Some (h, mi, se, EmptyString) =>
                Some (mk_datetime y m d h mi se 0 None)
            | _ => None
            end
        | None => None
        end
    | None => None
    end
  else if String.eqb fmt "%Y-%m-%d" then
    match read_date s with
    | Some (y, m, d, EmptyString) => Some (mk_datetime y m d 0 0 0 0 None)
    | _ => None
    end
  else None.

(** A permissive parser that gives up on everything: the code then falls
    back on [strptime]. *)
Definition parse_gives_up (s : string) : option datetime := None.

(** The example of the specification: the WHOIS body
    [{"result": {"creation_date": "1997-09-15 04:00:00"}}]. *)
Definition whois_1997 : json :=
  JObj [("result", JObj [("creation_date", JStr "1997-09-15 04:00:00")])].




End Age.

(** ** The two upstream calls ([search_google], [get_whois_data]) *)

Module Http.

(** What one request of the session comes to. [Response status read] is a
    response with that status; [read] is the outcome of reading its body
    ([response.json()] on a 200, [response.text()] where the code asks for
    the text, as a [JStr]). [NoResponse e] is a request that raised [e]. *)
Inductive reply :=
  | Response (status : Z) (read : res json)
  | NoResponse (e : exn).

(** What the call does that the outside can see. *)
Inductive event :=
  | Get (host : string) (keyword : string)
  | Post (host : string) (domain : string)
  | Sleep (seconds : Z).

Record researcher := mk_researcher {
    serp_api_key : string;
    whois_api_key : string;
    serp_host : string;
    whois_host : string
  }.

(** [a or b] on strings. *)
Definition str_or (a b : string) : string := if Str.nonempty a then a else b.

(** [AsyncDomainResearcher.__init__]. An argument left out is [""] here
    ([None] and [""] are both false for [or]); [getenv name] is
    [os.getenv(name, '')]. The two literals the source falls back on are
    taken as parameters; both are non-empty strings. *)
Definition init (default_serp_key default_whois_key : string)
    (getenv : string → string) (serp_api_key whois_api_key : string) : researcher :=
  mk_researcher
    (str_or serp_api_key (str_or (getenv "SERP_API_KEY") default_serp_key))
    (str_or whois_api_key (str_or (getenv "WHOIS_API_KEY") default_whois_key))
    "google-search116.p.rapidapi.com"
    "whois-api6.p.rapidapi.com".

(** The handlers [except asyncio.TimeoutError] and [except Exception] of
    [search_google] both return [None]; [CancelledError] passes. *)
Definition search_caught (e : exn) : res json :=
  if is_Exception e then Ok JNull else Raise e.

Definition search_read (read : res json) : res json :=
  match read with
  | Ok v => Ok v
  | Raise e => search_caught e
  end.

(** [search_google]; [replies 0] answers the request and [replies 1] the
    one retry. *)
Definition search_google (self : researcher) (replies : nat → reply)
    (keyword : string) : res json * list event :=
  if negb (Str.nonempty (serp_api_key self)) then
    (Raise (Exn ValueError "SERP API key is required"), [])
  else
    let get := Get (serp_host self) keyword in
    match replies 0%nat with
    | NoResponse e => (search_caught e, [get])
    | Response status read =>
        if status =? 200 then (search_read read, [get])
        else if status =? 429 then
          match replies 1%nat with
          | NoResponse e => (search_caught e, [get; Sleep 2; get])
          | Response retry_status retry_read =>
              if retry_status =? 200 then (search_read retry_read, [get; Sleep 2; get])
              else (Ok JNull, [get; Sleep 2; get])
          end
        else (Ok JNull, [get])
    end.

Definition max_retries : nat := 3.
Definition base_delay : Z := 2.

(** What one pass of the retry loop decides. *)
Inductive verdict :=
  | Return (v : json)
  | Retry
  | Propagate (e : exn).

(** The three [except] clauses of the loop body. *)
Definition whois_caught (e : exn) : verdict :=
  match cls e with
  | TimeoutError => Retry
  | CancelledError => Propagate e
  | _ => Return JNull
  end.

(** The status tests of the loop body. *)
Definition whois_verdict (r : reply) : verdict :=
  match r with
  | NoResponse e => whois_caught e
  | Response status read =>
      if status =? 200 then
        match read with Ok v => Return v | Raise e => whois_caught e end
      else if status =? 429 then Retry
      else if status =? 403 then Return JNull
      else
        match read with Ok _ => Return JNull | Raise e => whois_caught e end
  end.

(** [for attempt in range(max_retries + 1)], on the attempts left. *)
Fixpoint whois_loop (host domain : string) (replies : nat → reply)
    (attempts : list nat) : res json * list event :=
  match attempts with
  | [] => (Ok JNull, [])
  | attempt :: rest =>
      match whois_verdict (replies attempt) with
      | Return v => (Ok v, [Post host domain])
      | Propagate e => (Raise e, [Post host domain])
      | Retry =>
          if (attempt <? max_retries)%nat then
            let delay := base_delay * 2 ^ Z.of_nat attempt in
            let '(r, evs) := whois_loop host domain replies rest in
            (r, Post host domain :: Sleep delay :: evs)
          else (Ok JNull, [Post host domain])
      end
  end.

(** [get_whois_data]; [replies n] answers the request of attempt [n]. *)
Definition get_whois_data (self : researcher) (replies : nat → reply)
    (domain : string) : res json * list event :=
  if negb (Str.nonempty (whois_api_key self)) then
    (Raise (Exn ValueError "WHOIS API key is required"), [])
  else
    whois_loop (whois_host self) domain replies (seq 0 (max_retries + 1)).


(** Replies used in examples: rate limited for the first [n] attempts, then
    [r]. *)
Definition limited_then (n : nat) (r : reply) : nat → reply :=
  fun attempt => if (attempt <? n)%nat then Response 429 (Ok JNull) else r.

(** The configuration errors of the two guards. *)
Definition serp_key_required : exn := Exn ValueError "SERP API key is required".
Definition whois_key_required : exn := Exn ValueError "WHOIS API key is required".

(** The specification's sentence on the keys, for the researcher that
    [__init__] builds from its two arguments in the environment [getenv]:
    a call whose key was given neither as an argument nor in the
    environment raises the configuration error and makes no request. *)
Definition spec_keys_mandatory (default_serp_key default_whois_key : string)
    (getenv : string → string) (serp_api_key whois_api_key : string) : Prop :=
  let self :=
    init default_serp_key default_whois_key getenv serp_api_key whois_api_key in
  (serp_api_key = "" → getenv "SERP_API_KEY" = "" →
   ∀ replies keyword,
     search_google self replies keyword = (Raise serp_key_required, []))
  ∧ (whois_api_key = "" → getenv "WHOIS_API_KEY" = "" →
     ∀ replies domain,
       get_whois_data self replies domain = (Raise whois_key_required, [])).

(** An environment without the two variables. *)
Definition no_environment : string → string := fun _ => "".

Definition with_keys : researcher :=
  mk_researcher "serp-key" "whois-key"
                "google-search116.p.rapidapi.com" "whois-api6.p.rapidapi.com".

End Http.

(** ** The keyword loop ([research_keywords]), one task at a time *)

Module Research.
Import Age Extract.

(** The places where the code reads [cancelled_event.is_set()]. *)
Inductive checkpoint :=
  | AtKeywordStart
  | AfterSearch
  | BeforeTask (domain : string)
  | AtTaskStart (domain : string)
  | BeforeDelay.

(** What the surroundings answer during the pass for one keyword: the state
    of the cancellation event at each checkpoint, and the outcome of each
    awaited call ([JNull] for [None]). A callback or an event that was not
    passed answers [Ok tt] and [false]. *)
Record keyword_env := mk_keyword_env {
    cancelled_at : checkpoint → bool;
    progress : res unit;
    search : res json;
    whois : string → res json;
    domain_progress : string → res unit;
    now : datetime
  }.

Definition cancelled : exn := Exn CancelledError "Task cancelled".

(** [l[:n]] for an integer [n], negative or not. *)
Definition slice_to {A} (n : Z) (l : list A) : list A :=
  if 0 <=? n then take (Z.to_nat n) l
  else take (length l - Z.to_nat (- n))%nat l.

Section WithLibraries.

Variable str_lower : string → string.
Variable netloc_of : string → option string.
Variable date_parser_parse : string → option datetime.
Variable strptime : string → string → option datetime.

(** [list(domains)]: the order in which Python iterates over the set. *)
Variable set_order : gset string → list string.

(** [process_domain_with_semaphore], as far as one task alone goes; the
    admission through the semaphore is in [Gate] below. *)
Definition process_domain_with_semaphore (env : keyword_env)
    (domain keyword : string) : res DomainData :=
  if cancelled_at env (AtTaskStart domain) then Raise cancelled
  else
    let! result :=
      process_domain date_parser_parse strptime (whois env domain) (now env)
                     domain keyword in
    let! _ := domain_progress env domain in
    Ok result.

(** [for result in domain_results], over what [gather] collected with
    [return_exceptions=True]; stops at the first [CancelledError], which is
    raised again. *)
Fixpoint append_gathered (keyword : string) (domain_results : list (res DomainData))
    (results : list DomainData) : list DomainData * option exn :=
  match domain_results with
  | [] => (results, None)
  | Ok result :: rest => append_gathered keyword rest (results ++ [result])
  | Raise e :: rest =>
      if is_Exception e then
        append_gathered keyword rest
          (results ++ [DomainData5 keyword "N/A" "N/A" (-1) ("Error: " +:+ msg e)])
      else (results, Some e)
  end.

(** The body of the [try] of one pass, with the list [results] as it is
    left when the body ends or raises. *)
Definition keyword_body (env : keyword_env) (max_domains_per_keyword : Z)
    (keyword : string) (results : list DomainData) : list DomainData * res unit :=
  if cancelled_at env AtKeywordStart then (results, Raise cancelled)
  else
    match progress env with
    | Raise e => (results, Raise e)
    | Ok _ =>
      match search env with
      | Raise e => (results, Raise e)
      | Ok search_results =>
        if cancelled_at env AfterSearch then (results, Raise cancelled)
        else if negb (Dyn.truthy search_results) then
          (results ++ [DomainData5 keyword "N/A" "N/A" (-1) "Search Failed"], Ok tt)
        else
          match extract_domains str_lower netloc_of search_results with
          | Raise e => (results, Raise e)
          | Ok domains =>
            if bool_decide (domains = ∅) then
              (results ++ [DomainData5 keyword "N/A" "N/A" (-1) "No Domains Found"],
               Ok tt)
            else
              let selected := slice_to max_domains_per_keyword (set_order domains) in
              if existsb (fun d => cancelled_at env (BeforeTask d)) selected then
                (results, Raise cancelled)
              else
                let domain_tasks :=
                  map (fun d => process_domain_with_semaphore env d keyword) selected in
                match append_gathered keyword domain_tasks results with
                | (results, Some _) =>
                    (* the handler calls [task.done()] on a coroutine *)
                    (results,
                     Raise (Exn AttributeError
                              "'coroutine' object has no attribute 'done'"))
                | (results, None) =>
                    if cancelled_at env BeforeDelay then (results, Raise cancelled)
                    else (results, Ok tt)
                end
          end
      end
    end.

(** One pass of [for i, keyword in enumerate(keywords)]: the new [results]
    and the exception that leaves the loop, if any. *)
Definition keyword_iteration (env : keyword_env) (max_domains_per_keyword : Z)
    (keyword : string) (results : list DomainData) : list DomainData * option exn :=
  match keyword_body env max_domains_per_keyword keyword results with
  | (results, Ok _) => (results, None)
  | (results, Raise e) =>
      if is_Exception e then
        (results ++ [DomainData5 keyword "N/A" "N/A" (-1)
                       ("Keyword Error: " +:+ msg e)], None)
      else (results, Some e)
  end.

Fixpoint keywords_loop (envs : nat → keyword_env) (i : nat) (keywords : list string)
    (max_domains_per_keyword : Z) (results : list DomainData)
    : list DomainData * option exn :=
  match keywords with
  | [] => (results, None)
  | keyword :: rest =>
      match keyword_iteration (envs i) max_domains_per_keyword keyword results with
      | (results, None) => keywords_loop envs (S i) rest max_domains_per_keyword results
      | (results, Some e) => (results, Some e)
      end
  end.

(** [research_keywords]; [envs i] answers during the pass for keyword [i],
    [final_cancelled] and [final_progress] after the loop. *)
Definition research_keywords (envs : nat → keyword_env) (final_cancelled : bool)
    (final_progress : res unit) (keywords : list string)
    (max_domains_per_keyword : Z) : res (list DomainData) :=
  match keywords_loop envs 0 keywords max_domains_per_keyword [] with
  | (_, Some e) => Raise e
  | (results, None) =>
      let! _ := (if final_cancelled then Ok tt else final_progress) in
      Ok results
  end.

End WithLibraries.

(** The outcomes a record can stand for, and the status string of each. *)
Inductive outcome :=
  | SearchFailed
  | NoDomainsFound
  | WhoisFailed
  | AgeCalculationFailed
  | Success
  | DomainError (message : string)
  | KeywordError (message : string).

Definition tag (o : outcome) : string :=
  match o with
  | SearchFailed => "Search Failed"
  | NoDomainsFound => "No Domains Found"
  | WhoisFailed => "WHOIS Failed"
  | AgeCalculationFailed => "Age Calculation Failed"
  | Success => "Success"
  | DomainError m => "Error: " +:+ m
  | KeywordError m => "Keyword Error: " +:+ m
  end.

(** The first stage of the per-domain pipeline that fails. *)
Definition domain_outcome (date_parser_parse : string → option datetime)
    (strptime : string → string → option datetime)
    (whois : res json) (now : datetime) : outcome :=
  match whois with
  | Raise e => DomainError (msg e)
  | Ok whois_data =>
      if negb (Dyn.truthy whois_data) then WhoisFailed
      else
        match calculate_domain_age date_parser_parse strptime now whois_data with
        | Raise e => DomainError (msg e)
        | Ok (Some creation_date, Some _) =>
            if Str.nonempty creation_date then Success else AgeCalculationFailed
        | Ok _ => AgeCalculationFailed
        end
  end.

(** A pass that nobody cancels, with callbacks that return, and upstream
    calls that raise nothing but ordinary exceptions. *)
Definition undisturbed (env : keyword_env) : Prop :=
  (∀ c, cancelled_at env c = false)
  ∧ progress env = Ok tt
  ∧ (∀ d, domain_progress env d = Ok tt)
  ∧ ordinary (search env)
  ∧ (∀ d, ordinary (whois env d)).




(** A pass with two domains found, one known to WHOIS and one not. *)
Definition two_domains_pass : keyword_env :=
  mk_keyword_env (fun _ => false) (Ok tt)
    (Ok (JObj [("results",
                JArr [JObj [("url", JStr "https://www.nike.com/")];
                      JObj [("url", JStr "https://example.org/shoes")]])]))
    (fun d => if String.eqb d "nike.com" then Ok whois_1997 else Ok JNull)
    (fun _ => Ok tt)
    (mk_datetime 2025 9 15 12 0 0 0 None).

End Research.

(** ** Admission of the domain tasks ([domain_semaphore]) *)

(** The tasks of one job under the cooperative scheduler. A step is what one
    task does between two of its suspension points, or something the
    surroundings do to it. The semaphore is created once per call of
    [research_keywords] and shared by the tasks of every keyword. *)
Module Gate.

(** Where a task of [process_domain_with_semaphore] stands. *)
Inductive phase :=
  | Created     (* passed to [gather], not yet run *)
  | Waiting     (* suspended in [async with domain_semaphore] *)
  | Lookup      (* holds the semaphore, inside [process_domain] *)
  | Pacing      (* holds the semaphore, in [asyncio.sleep(0.5)] *)
  | Finished.   (* returned or raised; the semaphore is released *)

Record state := mk_state {
    value : nat;             (* the counter of the semaphore *)
    tasks : list phase;      (* the tasks created so far, all keywords *)
    cancel_set : bool        (* [cancelled_event.is_set()] *)
  }.

Inductive action :=
  | Start (i : nat)                  (* the task runs up to its first suspension *)
  | Wake (i : nat)                   (* a waiting task gets the semaphore *)
  | LookupDone (i : nat) (raised : bool)
        (* [process_domain] and the progress callback are over;
           [raised]: the callback raised *)
  | SleepDone (i : nat)              (* the pacing delay is over *)
  | Abort (i : nat)                  (* the task is cancelled where it stands *)
  | SetCancel                        (* [cancelled_event.set()] *)
  | NextKeyword (n : nat).           (* [gather] is over; [n] tasks for the next keyword *)

(** [asyncio.Semaphore(2)] *)
Definition initial_value : nat := 2.

Definition init (n : nat) : state := mk_state initial_value (replicate n Created) false.

Definition set_phase (s : state) (i : nat) (p : phase) (v : nat) : state :=
  mk_state v (<[i := p]> (tasks s)) (cancel_set s).

Definition all_finished (l : list phase) : bool :=
  forallb (fun p => match p with Finished => true | _ => false end) l.

Definition step (s : state) (a : action) : option state :=
  match a with
  | Start i =>
      match tasks s !! i with
      | Some Created =>
          if cancel_set s then Some (set_phase s i Finished (value s))
          else
            match value s with
            | O => Some (set_phase s i Waiting (value s))
            | S v => Some (set_phase s i Lookup v)
            end
      | _ => None
      end
  | Wake i =>
      match tasks s !! i, value s with
      | Some Waiting, S v => Some (set_phase s i Lookup v)
      | _, _ => None
      end
  | LookupDone i raised =>
      match tasks s !! i with
      | Some Lookup =>
          if raised then Some (set_phase s i Finished (S (value s)))
          else Some (set_phase s i Pacing (value s))
      | _ => None
      end
  | SleepDone i =>
      match tasks s !! i with
      | Some Pacing => Some (set_phase s i Finished (S (value s)))
      | _ => None
      end
  | Abort i =>
      match tasks s !! i with
      | Some Created | Some Waiting => Some (set_phase s i Finished (value s))
      | Some Lookup | Some Pacing => Some (set_phase s i Finished (S (value s)))
      | _ => None
      end
  | SetCancel => Some (mk_state (value s) (tasks s) true)
  | NextKeyword n =>
      if all_finished (tasks s)
      then Some (mk_state (value s) (tasks s ++ replicate n Created) (cancel_set s))
      else None
  end.

Fixpoint run (s : state) (acts : list action) : option state :=
  match acts with
  | [] => Some s
  | a :: rest =>
      match step s a with
      | Some s' => run s' rest
      | None => None
      end
  end.

Definition holding (p : phase) : bool :=
  match p with Lookup | Pacing => true | _ => false end.

Definition in_lookup (p : phase) : bool :=
  match p with Lookup => true | _ => false end.

(** Tasks inside [async with domain_semaphore]. *)
Definition holders (l : list phase) : nat := length (filter (fun p => holding p = true) l).

(** WHOIS lookups under way. *)
Definition in_flight (s : state) : nat :=
  length (filter (fun p => in_lookup p = true) (tasks s)).

(** What every step keeps: the counter and the holders add up to 2. *)
Definition balanced (s : state) : Prop :=
  (value s + holders (tasks s) = initial_value)%nat.

(** A schedule of five tasks: the first two are admitted, the third waits
    until the first is through its delay. *)
Definition five_tasks_schedule : list action :=
  [Start 0; Start 1; Start 2; LookupDone 0 false; SleepDone 0; Wake 2;
   Start 3]%nat.

End Gate.

(** ** The job registry of the web layer ([app.py]) *)

Module App.

(** An entry of [research_tasks]. [status] holds the strings the code
    stores. [results] holds the rows, each with the seven fields of its
    [DomainData]. [created_at] is the instant [datetime.now()] returned,
    which [isoformat] and [fromisoformat] carry unchanged.
    [cancelled_event] is whether the event is set. The two keys that
    [run_research] adds are absent until then. *)
Record task := mk_task {
    status : string;
    progress : Z;
    total : Z;
    current_keyword : string;
    results : list DomainData;
    error : option string;
    created_at : Z;
    cancelled_event : bool;
    domains_processed : option Z;
    total_domains_estimated : option Z
  }.

(** The [asyncio.Task] that runs [run_research]: not yet run (it holds the
    request), suspended inside [research_keywords], or over. *)
Inductive coroutine :=
  | Pending (n_keywords max_domains_per_keyword : Z)
  | Suspended
  | Done.

Record registry := mk_registry {
    research_tasks : gmap string task;
    research_task_objects : gmap string coroutine
  }.

Definition empty : registry := mk_registry ∅ ∅.

(** How [await researcher.research_keywords(...)] ends. *)
Inductive outcome :=
  | Returned (results : list DomainData)
  | RaisedCancelled
  | RaisedException (message : string).

(** What happens to the registry, one scheduler step at a time. *)
Inductive event :=
  | StartResearch (task_id : string) (n_keywords max_domains_per_keyword : Z)
  | Begin (task_id : string)
  | ProgressCallback (task_id : string) (current : Z) (message : string)
  | DomainProgressCallback (task_id : string)
  | Finish (task_id : string) (o : outcome)
  | CancelTask (task_id : string)
  | Cleanup
  | HealthCheck.

Definition set_status (s : string) (e : option string) (j : task) : task :=
  mk_task s (progress j) (total j) (current_keyword j) (results j) e
          (created_at j) (cancelled_event j) (domains_processed j)
          (total_domains_estimated j).

(** [task["status"] in ["completed", "error", "cancelled"]] *)
Definition is_terminal (s : string) : bool :=
  String.eqb s "completed" || String.eqb s "error" || String.eqb s "cancelled".

(** The first statements of [run_research]. *)
Definition begin (n_keywords max_domains_per_keyword : Z) (j : task) : task :=
  mk_task "running" (progress j) (total j) (current_keyword j) (results j)
          (error j) (created_at j) (cancelled_event j)
          (Some 0) (Some (n_keywords * max_domains_per_keyword)).

(** [progress_callback]; it raises when the event is set and writes
    nothing. *)
Definition progress_callback (current : Z) (message : string) (j : task) : task :=
  if cancelled_event j then j
  else mk_task (status j) current (total j) message (results j) (error j)
               (created_at j) (cancelled_event j) (domains_processed j)
               (total_domains_estimated j).

(** [domain_progress_callback] *)
Definition domain_progress_callback (j : task) : task :=
  if cancelled_event j then j
  else mk_task (status j) (progress j) (total j) (current_keyword j) (results j)
               (error j) (created_at j) (cancelled_event j)
               ((fun d => d + 1) <$> domains_processed j)
               (total_domains_estimated j).

(** The end of [run_research]: the statements after the [await] and the
    two handlers. *)
Definition finish (o : outcome) (j : task) : task :=
  match o with
  | Returned rs =>
      if cancelled_event j then set_status "cancelled" (Some "Task cancelled by user") j
      else
        mk_task "completed" (progress j) (total j) (current_keyword j) rs
                (error j) (created_at j) (cancelled_event j)
                (domains_processed j) (total_domains_estimated j)
  | RaisedCancelled => set_status "cancelled" (Some "Task cancelled by user") j
  | RaisedException m =>
      if negb (cancelled_event j) then set_status "error" (Some m) j
      else set_status "cancelled" (Some "Task cancelled by user") j
  end.

(** [cancel_task] on an entry: a job that is not running is left as it is
    (the endpoint answers 400). *)
Definition cancel (j : task) : task :=
  if String.eqb (status j) "running" then
    mk_task "cancelled" (progress j) (total j) (current_keyword j) (results j)
            (Some "Task cancelled by user") (created_at j) true
            (domains_processed j) (total_domains_estimated j)
  else j.

(** The test of the sweep on one entry, at [current_time]. *)
Definition expired (current_time : Z) (j : task) : bool :=
  is_terminal (status j)
  && total_seconds_gt (current_time - created_at j) 3600.

Definition remove (task_id : string) (reg : registry) : registry :=
  mk_registry (delete task_id (research_tasks reg))
              (delete task_id (research_task_objects reg)).

(** [cleanup_old_tasks] *)
Definition cleanup_old_tasks (current_time : Z) (reg : registry) : registry :=
  let tasks_to_remove :=
    (filter (fun p => expired current_time p.2 = true)
            (map_to_list (research_tasks reg))).*1 in
  foldr remove reg tasks_to_remove.

(** [get_task_status]: the entry, or [None] for the 404. *)
Definition get_task_status (reg : registry) (task_id : string) : option task :=
  research_tasks reg !! task_id.

(** [get_results]: the 404, the 400, or the rows. *)
Definition get_results (reg : registry) (task_id : string)
    : option (option (list DomainData)) :=
  match research_tasks reg !! task_id with
  | None => None
  | Some j => if String.eqb (status j) "completed" then Some (Some (results j))
              else Some None
  end.

(** [health_check]: the sweep, then the two counts. *)
Definition health_check (current_time : Z) (reg : registry) : registry * (nat * nat) :=
  let reg := cleanup_old_tasks current_time reg in
  (reg,
   (length (filter (fun p => status p.2 = "running") (map_to_list (research_tasks reg))),
    size (research_tasks reg))).

Definition update (task_id : string) (f : task → task) (co : coroutine)
    (reg : registry) : registry :=
  mk_registry (alter f task_id (research_tasks reg))
              (<[task_id := co]> (research_task_objects reg)).

(** One step at time [t]. [None]: the event cannot happen in that state (a
    task identifier is drawn fresh; a coroutine runs its statements in
    order). A coroutine whose entry was swept finds no
    [research_tasks[task_id]] and changes nothing. *)
Definition step (t : Z) (reg : registry) (e : event) : option registry :=
  match e with
  | StartResearch task_id n_keywords max_domains_per_keyword =>
      match research_tasks reg !! task_id, research_task_objects reg !! task_id with
      | None, None =>
          Some (mk_registry
                  (<[task_id := mk_task "starting" 0 n_keywords "" [] None t false
                                        None None]> (research_tasks reg))
                  (<[task_id := Pending n_keywords max_domains_per_keyword]>
                     (research_task_objects reg)))
      | _, _ => None
      end
  | Begin task_id =>
      match research_task_objects reg !! task_id with
      | Some (Pending n m) => Some (update task_id (begin n m) Suspended reg)
      | Some _ => None
      | None => Some reg
      end
  | ProgressCallback task_id current message =>
      match research_task_objects reg !! task_id with
      | Some Suspended =>
          Some (update task_id (progress_callback current message) Suspended reg)
      | Some _ => None
      | None => Some reg
      end
  | DomainProgressCallback task_id =>
      match research_task_objects reg !! task_id with
      | Some Suspended => Some (update task_id domain_progress_callback Suspended reg)
      | Some _ => None
      | None => Some reg
      end
  | Finish task_id o =>
      match research_task_objects reg !! task_id with
      | Some Suspended => Some (update task_id (finish o) Done reg)
      | Some _ => None
      | None => Some reg
      end
  | CancelTask task_id =>
      Some (mk_registry (alter cancel task_id (research_tasks reg))
                        (research_task_objects reg))
  | Cleanup => Some (cleanup_old_tasks t reg)
  | HealthCheck => Some (health_check t reg).1
  end.

(** A run: the events with the instant of each. *)
Fixpoint run (reg : registry) (evs : list (Z * event)) : option registry :=
  match evs with
  | [] => Some reg
  | (t, e) :: rest =>
      match step t reg e with
      | Some reg' => run reg' rest
      | None => None
      end
  end.

Definition status_of (reg : registry) (task_id : string) : string :=
  match research_tasks reg !! task_id with
  | Some j => status j
  | None => ""
  end.

(** The instant at which the job entered the terminal state it is in: the
    time of the last event that took its status from a state that is not
    terminal to one that is. *)
Fixpoint terminal_since (reg : registry) (evs : list (Z * event)) (task_id : string)
    (since : option Z) : option Z :=
  match evs with
  | [] => since
  | (t, e) :: rest =>
      match step t reg e with
      | Some reg' =>
          terminal_since reg' rest task_id
            (if is_terminal (status_of reg' task_id)
                && negb (is_terminal (status_of reg task_id))
             then Some t else since)
      | None => since
      end
  end.

(** What links an entry to the coroutine that writes it. *)
Definition coherent (j : task) (co : coroutine) : Prop :=
  match co with
  | Pending _ _ =>
      status j = "starting" ∧ results j = [] ∧ cancelled_event j = false
  | Suspended =>
      results j = []
      ∧ (status j = "running" ∧ cancelled_event j = false
         ∨ status j = "cancelled" ∧ cancelled_event j = true)
  | Done =>
      status j = "completed"
      ∨ results j = [] ∧ (status j = "cancelled" ∨ status j = "error")
  end.

(** Every entry has its coroutine, and the two agree. *)
Definition consistent (reg : registry) : Prop :=
  ∀ task_id,
    match research_tasks reg !! task_id, research_task_objects reg !! task_id with
    | Some j, Some co => coherent j co
    | None, None => True
    | _, _ => False
    end.

Definition seconds (n : Z) : Z := n * 1000000.

(** The specification's retention rule, for the job [task_id] after the
    run [evs] and a sweep at [now]: the job is gone exactly when it is
    terminal and entered that state more than an hour before. *)
Definition spec_retention (evs : list (Z * event)) (task_id : string) (now : Z) : Prop :=
  ∀ reg j since,
    run empty evs = Some reg →
    research_tasks reg !! task_id = Some j →
    terminal_since empty evs task_id None = Some since →
    (get_task_status (cleanup_old_tasks now reg) task_id = None
     ↔ is_terminal (status j) = true ∧ seconds 3600 < now - since).

(** A job that runs for two hours and completes. *)
Definition long_job : list (Z * event) :=
  [(seconds 0, StartResearch "job-1" 1 5);
   (seconds 0, Begin "job-1");
   (seconds 1, ProgressCallback "job-1" 0 "Processing keyword: nike");
   (seconds 7199, DomainProgressCallback "job-1");
   (seconds 7200, Finish "job-1" (Returned []))].

(** A job that is cancelled while it runs. *)
Definition cancelled_job : list (Z * event) :=
  [(seconds 0, StartResearch "job-2" 2 5);
   (seconds 0, Begin "job-2");
   (seconds 1, ProgressCallback "job-2" 0 "Processing keyword: nike");
   (seconds 2, CancelTask "job-2")].

End App.

(** ** Filtering of results ([apply_advanced_filter]) *)

Module Filter.

(** [keyword_groups]: a dict from keyword to the list of its results, as its
    items in insertion order. *)
Definition groups := list (string * list DomainData).

(** [keyword_groups[k]] when [k] is a key. *)
Fixpoint group_of (k : string) (g : groups) : option (list DomainData) :=
  match g with
  | [] => None
  | (k', rs) :: g' => if String.eqb k k' then Some rs else group_of k g'
  end.

(** [if k not in keyword_groups: keyword_groups[k] = []] followed by
    [keyword_groups[k].append(r)]: a new key goes last. *)
Fixpoint group_append (k : string) (r : DomainData) (g : groups) : groups :=
  match g with
  | [] => [(k, [r])]
  | (k', rs) :: g' =>
      if String.eqb k k' then (k', rs ++ [r]) :: g'
      else (k', rs) :: group_append k r g'
  end.

(** The first loop. *)
Definition group_by_keyword (results : list DomainData) : groups :=
  fold_left (fun g r => group_append (keyword r) r g) results [].

(** [r.age_days != -1 and min_age <= r.age_days <= max_age] *)
Definition in_range (min_age max_age : Z) (r : DomainData) : bool :=
  negb (age_days r =? -1) && (min_age <=? age_days r) && (age_days r <=? max_age).

(** The body of the second loop, for one group. *)
Definition kept (min_age max_age min_domains : Z) (keyword_results : list DomainData)
    : list DomainData :=
  let valid_domains := List.filter (in_range min_age max_age) keyword_results in
  if min_domains <=? Z.of_nat (length valid_domains) then valid_domains else [].

Definition apply_advanced_filter (results : list DomainData)
    (min_age max_age min_domains : Z) : list DomainData :=
  flat_map (fun g => kept min_age max_age min_domains (snd g))
           (group_by_keyword results).

(** The results of one keyword, in their order. *)
Definition of_keyword (k : string) (results : list DomainData) : list DomainData :=
  List.filter (fun r => String.eqb (keyword r) k) results.

(** The results of [r]'s keyword that pass the age test. *)
Definition valid_of_keyword (min_age max_age : Z) (k : string)
    (results : list DomainData) : list DomainData :=
  List.filter (in_range min_age max_age) (of_keyword k results).

Definition sample : list DomainData :=
  [mk_DomainData "nike" "nike.com" "1995-03-24 05:00:00" 11000 "Success" "" "30 years, 50 days";
   mk_DomainData "puma" "puma.com" "2024-01-01 00:00:00" 300 "Success" "" "300 days";
   mk_DomainData "nike" "sneakers.io" "2025-01-01 00:00:00" 200 "Success" "" "200 days";
   DomainData5 "nike" "nike.shop" "N/A" (-1) "WHOIS Failed";
   mk_DomainData "nike" "kicks.dev" "2025-06-01 00:00:00" 100 "Success" "" "100 days"].

End Filter.

(** ** Measures on what a call does *)

Module Trace.
Import Http.

(** Seconds spent in [asyncio.sleep]. *)
Fixpoint total_sleep (evs : list event) : Z :=
  match evs with
  | [] => 0
  | Sleep s :: rest => s + total_sleep rest
  | _ :: rest => total_sleep rest
  end.

(** Requests sent. *)
Fixpoint requests (evs : list event) : nat :=
  match evs with
  | [] => 0
  | Sleep _ :: rest => requests rest
  | _ :: rest => S (requests rest)
  end.

End Trace.

(** ** Shapes of broken search responses *)

Module Shapes.

(** A value that is neither a container nor a string: testing [key in v]
    on it raises. *)
Definition is_scalar (v : json) : bool :=
  match v with
  | JNull | JBool _ | JNum _ => true
  | _ => false
  end.

(** A response whose second [results] entry is a bare number. *)
Definition one_bad_entry : list (string * json) :=
  [("results",
    JArr [JObj [("url", JStr "https://www.python.org/")]; JNum 404;
          JObj [("url", JStr "https://docs.rs/")]])].

End Shapes.

(** ** Passes of the keyword loop used in examples *)

Module Passes.
Import Research.

(** A pass during which the event is set after the tasks were created and
    before they run. *)
Definition cancelled_at_task_start : keyword_env :=
  mk_keyword_env
    (fun c => match c with AtTaskStart _ => true | _ => false end)
    (Ok tt)
    (Ok (JObj [("results", JArr [JObj [("url", JStr "https://www.nike.com/")]])]))
    (fun _ => Ok Age.whois_1997) (fun _ => Ok tt)
    (mk_datetime 2025 9 15 12 0 0 0 None).

(** A pass that finds the event set when it begins. *)
Definition cancelled_from_start : keyword_env :=
  mk_keyword_env (fun _ => true) (Ok tt) (Ok JNull)
    (fun _ => Ok JNull) (fun _ => Ok tt)
    (mk_datetime 2025 9 15 12 0 0 0 None).

End Passes.

(** ** More on the registry *)

Module Registry.
Import App.

(** A cancelled entry carries the message of the cancellation. *)
Definition cancel_message_kept (reg : registry) : Prop :=
  ∀ task_id j,
    research_tasks reg !! task_id = Some j →
    status j = "cancelled" → error j = Some "Task cancelled by user".

End Registry.

(** ** Keywords from an uploaded file ([upload_keywords]) *)

Module Upload.

(** The line feed that [text.split('\n')] splits on. *)
Definition nl : ascii := ascii_of_nat 10.

(** [str.isspace] on ASCII: tab, line feed, vertical tab, form feed,
    carriage return, the four separators 28 to 31, and the space. The
    white space outside ASCII, which [str.strip] removes as well, is not
    modelled: a line is stripped of ASCII white space only. *)
Definition is_space (c : ascii) : bool :=
  let n := nat_of_ascii c in
  (((9 <=? n) && (n <=? 13)) || ((28 <=? n) && (n <=? 32)))%nat.

Fixpoint lstrip (s : string) : string :=
  match s with
  | EmptyString => EmptyString
  | String c s' => if is_space c then lstrip s' else s
  end.

Fixpoint rstrip (s : string) : string :=
  match s with
  | EmptyString => EmptyString
  | String c s' =>
      let r := rstrip s' in
      if Str.nonempty r then String c r
      else if is_space c then EmptyString else String c EmptyString
  end.

(** [s.strip()] *)
Definition strip (s : string) : string := rstrip (lstrip s).

(** [text.split('\n')]: one more piece than there are line feeds. *)
Fixpoint split_lines (text : string) : list string :=
  match text with
  | EmptyString => [EmptyString]
  | String c text' =>
      if Ascii.eqb c nl then EmptyString :: split_lines text'
      else
        match split_lines text' with
        | line :: lines => String c line :: lines
        | [] => [String c EmptyString]
        end
  end.

(** The list built by [upload_keywords] from the decoded [text]: [[line.strip()
    for line in text.split('\n') if line.strip()]]. A file that is not
    UTF-8 is answered with status 400 before this point. *)
Definition upload_keywords (text : string) : list string :=
  List.filter Str.nonempty (map strip (split_lines text)).

(** ["\n".join(lines)] *)
Definition join_lines (lines : list string) : string :=
  String.concat (String nl EmptyString) lines.

(** Every character of [s] passes [p]. *)
Fixpoint all_chars (p : ascii → bool) (s : string) : bool :=
  match s with
  | EmptyString => true
  | String c s' => p c && all_chars p s'
  end.

Definition no_newline (s : string) : bool :=
  all_chars (fun c => negb (Ascii.eqb c nl)) s.

Definition tab : ascii := ascii_of_nat 9.

(** A file with blank lines, padding and a trailing line feed. *)
Definition sample_file : string :=
  String " " (String " " "nike shoes")
  +:+ String nl (String nl (String tab "puma"))
  +:+ String " " (String nl (String " " (String nl EmptyString))).

End Upload.

(** ** The filter endpoint ([filter_results]) *)

Module Endpoints.
Import Filter.

(** [FilterRequest] *)
Record FilterRequest := mk_FilterRequest {
  task_id : string;
  min_age : Z;
  max_age : Z;
  min_domains : Z;
  enable_filtering : bool
}.

(** What an endpoint answers: a body, or one of the two errors. *)
Inductive answer (A : Type) : Type :=
  | Body (a : A)
  | NotFound          (* 404, "Task not found" *)
  | NotCompleted.     (* 400, "Task not completed" *)
Arguments Body {A} a.
Arguments NotFound {A}.
Arguments NotCompleted {A}.

(** A row of [filtered_results]: the six keys the endpoint writes. *)
Record filtered_row := mk_filtered_row {
  row_keyword : string;
  row_domain : string;
  row_creation_date : string;
  row_age_days : Z;
  row_status : string;
  row_google_string : string
}.

Definition to_row (r : DomainData) : filtered_row :=
  mk_filtered_row (keyword r) (domain r) (creation_date r) (age_days r)
                  (status r) (google_string r).

(** [filter_results]. The stored rows are turned back into [DomainData]
    key by key; every stored row has the key [age_display]. *)
Definition filter_results (reg : App.registry) (request : FilterRequest)
    : answer (list filtered_row) :=
  match App.research_tasks reg !! task_id request with
  | None => NotFound
  | Some task =>
      if negb (String.eqb (App.status task) "completed") then NotCompleted
      else
        let results := App.results task in
        let filtered_results :=
          if enable_filtering request then
            apply_advanced_filter results (min_age request) (max_age request)
                                  (min_domains request)
          else results in
        Body (map to_row filtered_results)
  end.

(** A registry with one completed job holding the sample records. *)
Definition one_completed : App.registry :=
  App.mk_registry
    {[ "job-9" := App.mk_task "completed" 2 2 "Research completed!" Filter.sample None 0
                          false (Some 5) (Some 10) ]}
    {[ "job-9" := App.Done ]}.

End Endpoints.

(** * Properties *)

Module ExtractFacts.
Import Extract.

Lemma lower_ascii_idempotent c :
  Str.lower_ascii (Str.lower_ascii c) = Str.lower_ascii c.
Proof. destruct c as [[] [] [] [] [] [] [] []]; reflexivity. Qed.

(** The ASCII instance has the two properties of [str.lower]. *)
Lemma lower_laws_ascii : Str.lower_laws Str.lower.
Proof.
  split; unfold Str.is_lower.
  - induction s as [|c s IH]; simpl; [reflexivity|].
    by rewrite lower_ascii_idempotent, IH.
  - intros s H. cbv [String.append] in H. simpl in H. by injection H.
Qed.

(** [s.startswith(p)] gives [s == p + s[len(p):]]. *)
Lemma startswith_drop p : ∀ s,
  Str.startswith p s = true → s = p +:+ Str.drop (String.length p) s.
Proof.
  unfold Str.startswith.
  induction p as [|a p IH]; intros s H; [done|].
  destruct s as [|b s]; [discriminate|].
  cbn [String.prefix] in H.
  destruct (Ascii.ascii_dec a b) as [->|]; [|discriminate H].
  cbn [String.length Str.drop]. cbv [String.append]. fold String.append.
  f_equal. by apply IH.
Qed.

Lemma ordinary_contains k v : ordinary (Dyn.contains k v).
Proof. by destruct v. Qed.

Lemma ordinary_getitem v k : ordinary (Dyn.getitem v k).
Proof. destruct v; simpl; try done. by destruct (Dyn.assoc k kv). Qed.

Lemma ordinary_iter v : ordinary (Dyn.iter v).
Proof. by destruct v. Qed.

Lemma ordinary_bind {A B} (c : res A) (k : A → res B) :
  ordinary c → (∀ a, c = Ok a → ordinary (k a)) → ordinary (Py.bind c k).
Proof. destruct c; simpl; eauto. Qed.

Lemma try_except_ordinary {A} (c : res A) (d : A) :
  ordinary c → ∃ a, try_except c (fun _ => Ok d) = Ok a ∧ (c = Ok a ∨ (a = d ∧ ∃ e, c = Raise e)).
Proof.
  destruct c as [a|e]; simpl; intros H.
  - exists a. auto.
  - rewrite H. exists d. eauto.
Qed.

Lemma ordinary_results_entry r : ordinary (results_entry r).
Proof.
  unfold results_entry.
  apply ordinary_bind; [apply ordinary_contains|]. intros [] _.
  - apply ordinary_bind; [apply ordinary_getitem|done].
  - apply ordinary_bind; [apply ordinary_contains|]. intros [] _; [|done].
    apply ordinary_bind; [apply ordinary_getitem|done].
Qed.

Lemma ordinary_organic_entry r : ordinary (organic_entry r).
Proof.
  unfold organic_entry.
  apply ordinary_bind; [apply ordinary_contains|]. intros [] _; [|done].
  apply ordinary_bind; [apply ordinary_getitem|done].
Qed.

Lemma ordinary_for_each f l : (∀ x, ordinary (f x)) → ordinary (for_each f l).
Proof.
  intros Hf. induction l as [|x l IH]; simpl; [done|].
  apply ordinary_bind; [apply Hf|]. intros us _.
  apply ordinary_bind; [apply IH|done].
Qed.

Lemma ordinary_collect_key key f sr :
  (∀ x, ordinary (f x)) → ordinary (collect_key key f sr).
Proof.
  intros Hf. unfold collect_key.
  apply ordinary_bind; [apply ordinary_contains|]. intros [] _; [|done].
  apply ordinary_bind; [apply ordinary_getitem|]. intros v _.
  apply ordinary_bind; [apply ordinary_iter|]. intros es _.
  by apply ordinary_for_each.
Qed.

Lemma ordinary_collect_urls sr : ordinary (collect_urls sr).
Proof.
  unfold collect_urls.
  apply ordinary_bind; [apply ordinary_collect_key, ordinary_results_entry|].
  intros a _.
  apply ordinary_bind; [apply ordinary_collect_key, ordinary_organic_entry|done].
Qed.

Section WithUrlparse.
Variable str_lower : string → string.
Variable netloc_of : string → option string.

Local Abbreviation accepted := (accepted str_lower netloc_of).

Lemma ordinary_parsed url : ordinary (parsed_netloc_lower str_lower netloc_of url).
Proof. destruct url; simpl; try done. by destruct (netloc_of s). Qed.

Lemma add_url_guarded url (D : gset string) :
  ∃ D', try_except (add_url str_lower netloc_of url D) (fun _ => Ok D) = Ok D' ∧
        ∀ d, d ∈ D' ↔ d ∈ D ∨ accepted url d.
Proof.
  unfold add_url, accepted.
  destruct url as [| | |u| |]; simpl;
    try (exists D; split; [done|]; intros d; split; [auto|];
         intros [?|(?&?&?&_)]; [done|discriminate]).
  destruct (netloc_of u) as [n|] eqn:Hn; simpl.
  - destruct (valid_domain (strip_www (str_lower n))) eqn:Hv; simpl.
    + eexists; split; [done|]. intros d. rewrite elem_of_union, elem_of_singleton.
      split.
      * intros [->|?]; [right|by left]. by exists u, n.
      * intros [?|(u'&n'&[= <-]&Hn'&->&_)]; [by right|].
        left. congruence.
    + exists D; split; [done|]. intros d; split; [auto|].
      intros [?|(u'&n'&[= <-]&Hn'&->&Hv')]; [done|]. congruence.
  - exists D; split; [done|]. intros d; split; [auto|].
    intros [?|(u'&n'&[= <-]&Hn'&_)]; [done|]. congruence.
Qed.

Lemma add_urls_spec urls : ∀ D : gset string,
  ∃ D', add_urls str_lower netloc_of urls D = Ok D' ∧
        ∀ d, d ∈ D' ↔ d ∈ D ∨ ∃ url, url ∈ urls ∧ accepted url d.
Proof.
  induction urls as [|url urls IH]; intros D; simpl.
  - exists D; split; [done|]. intros d; split; [auto|].
    intros [?|(?&H&_)]; [done|]. by apply elem_of_nil in H.
  - destruct (add_url_guarded url D) as (D1 & -> & H1). simpl.
    destruct (IH D1) as (D2 & -> & H2). exists D2; split; [done|].
    intros d. rewrite H2, H1. split.
    + intros [[?|?]|(x&?&?)]; [by left| |]; right.
      * exists url. split; [left|done].
      * exists x. split; [by right|done].
    + intros [?|(x&Hx&?)]; [by left; left|].
      apply elem_of_cons in Hx as [->|?]; [by left; right|].
      right. by exists x.
Qed.

(** What is left of a lowered string once a leading [www.] is removed is
    lowercase. *)
Lemma is_lower_strip_www n :
  Str.lower_laws str_lower → Str.is_lower str_lower (strip_www (str_lower n)).
Proof.
  intros [Hidem Hwww]. unfold strip_www.
  destruct (Str.startswith "www." (str_lower n)) eqn:Hp; [|apply Hidem].
  apply Hwww. change 4%nat with (String.length "www.").
  rewrite <- (startswith_drop _ _ Hp). apply Hidem.
Qed.

Lemma accepted_good url d : accepted url d →
  d ≠ "" ∧ Str.contains "." d = true ∧ Str.startswith "." d = false
    ∧ (∃ n, d = strip_www (str_lower n))
    ∧ (Str.lower_laws str_lower → Str.is_lower str_lower d).
Proof.
  intros (u & n & _ & _ & -> & Hv). unfold valid_domain in Hv.
  apply andb_true_iff in Hv as [Hv H3]. apply andb_true_iff in Hv as [H1 H2].
  apply negb_true_iff in H3. repeat split; try done.
  - intros E. by rewrite E in H1.
  - by exists n.
  - apply is_lower_strip_www.
Qed.


(** C10. Domain extraction is total: on every value, with any [urlparse]
    and any [str.lower], it returns a set and raises nothing, and every
    element of the set is non-empty, contains a dot and does not start with
    a dot. Every element is what [str.lower] returned, less a leading
    [www.]; so it is fully lowercase, that is, [str.lower] leaves it as it
    is: this last part rests on the two facts about [str.lower] gathered in
    [Str.lower_laws]. *)
Theorem extract_domains_total (search_results : json) :
  ∃ s, extract_domains str_lower netloc_of search_results = Ok s ∧
       ∀ d, d ∈ s →
            d ≠ "" ∧ Str.contains "." d = true ∧ Str.startswith "." d = false
              ∧ (∃ n, d = strip_www (str_lower n))
              ∧ (Str.lower_laws str_lower → Str.is_lower str_lower d).
Proof.
  unfold extract_domains.
  destruct (Dyn.truthy search_results); simpl.
  2:{ exists ∅. split; [done|]. intros d Hd. by apply not_elem_of_empty in Hd. }
  pose proof (ordinary_collect_urls search_results) as Hc.
  destruct (collect_urls search_results) as [urls|e]; simpl in *.
  - destruct (add_urls_spec urls ∅) as (D & -> & HD). simpl.
    exists D; split; [done|]. intros d Hd. apply HD in Hd as [Hd|(url & _ & Ha)].
    + by apply not_elem_of_empty in Hd.
    + by eapply accepted_good.
  - rewrite Hc. exists ∅. split; [done|]. intros d Hd.
    by apply not_elem_of_empty in Hd.
Qed.

Lemma for_each_results es :
  for_each results_entry (map JObj es) = Ok (flat_map entry_url_or_link es).
Proof.
  induction es as [|e es IH]; simpl; [done|].
  rewrite IH. unfold results_entry, entry_url_or_link. simpl.
  destruct (Dyn.assoc "url" e); simpl; [done|].
  by destruct (Dyn.assoc "link" e).
Qed.

Lemma for_each_organic es :
  for_each organic_entry (map JObj es) = Ok (flat_map entry_url es).
Proof.
  induction es as [|e es IH]; simpl; [done|].
  rewrite IH. unfold organic_entry, entry_url. simpl.
  by destruct (Dyn.assoc "url" e).
Qed.

Lemma all_objects_map l es : all_objects l = Some es → l = map JObj es.
Proof.
  revert es. induction l as [|x l IH]; simpl; intros es H.
  - by injection H as <-.
  - destruct x; try discriminate. destruct (all_objects l); [|discriminate].
    injection H as <-. simpl. f_equal. by apply IH.
Qed.

Lemma collect_key_objects key f kv es :
  field_objects key kv = Some es →
  collect_key key f (JObj kv) = for_each f (map JObj es).
Proof.
  unfold field_objects, collect_key. simpl.
  destruct (Dyn.assoc key kv) as [v|]; simpl.
  - destruct v; try discriminate. intros H. by rewrite (all_objects_map _ _ H).
  - by intros [= <-].
Qed.

(** C5, as the code has it. For a response object whose [results] and
    [organic] entries, where present, are arrays of objects, the URLs
    scanned are: for each [results] entry its [url], or its [link] when it
    has no [url]; for each [organic] entry its [url]. A domain is in the
    output set exactly when one of those URLs is a string whose netloc,
    lowercased by [str.lower] and with one leading [www.] removed, is
    non-empty, contains a dot and does not start with a dot. This holds
    for every [urlparse] and every [str.lower]. *)
Theorem extract_domains_well_shaped kv rs os :
  field_objects "results" kv = Some rs →
  field_objects "organic" kv = Some os →
  ∃ s, extract_domains str_lower netloc_of (JObj kv) = Ok s ∧
       ∀ d, d ∈ s ↔
            ∃ url, url ∈ flat_map entry_url_or_link rs ++ flat_map entry_url os
                   ∧ accepted url d.
Proof.
  intros Hr Ho. unfold extract_domains.
  destruct kv as [|p kv'] eqn:Ekv.
  - injection Hr as <-. injection Ho as <-. simpl. exists ∅. split; [done|].
    intros d. split.
    + intros Hd. by apply not_elem_of_empty in Hd.
    + intros (url & Hu & _). by apply elem_of_nil in Hu.
  - rewrite <- Ekv in *. replace (Dyn.truthy (JObj kv)) with true by (by rewrite Ekv).
    simpl. unfold collect_urls.
    rewrite (collect_key_objects _ _ _ _ Hr), (collect_key_objects _ _ _ _ Ho).
    rewrite for_each_results, for_each_organic. simpl.
    destruct (add_urls_spec (flat_map entry_url_or_link rs ++ flat_map entry_url os) ∅)
      as (D & -> & HD). simpl.
    exists D. split; [done|]. intros d. rewrite HD. split.
    + intros [Hd|?]; [by apply not_elem_of_empty in Hd|done].
    + by right.
Qed.

End WithUrlparse.

Lemma extract_url_and_link :
  extract_domains Str.lower Urllib.netloc url_and_link = Ok ({[ "a.com" ]} ∪ ∅).
Proof. reflexivity. Qed.

(** C5, counterexample: an entry with both [url] and [link] gives only the
    domain of [url]; the domain of its [link], which the specification
    counts among the scanned URLs, is not in the output. *)
Lemma extract_domains_link_counterexample :
  ¬ spec_extraction Str.lower Urllib.netloc url_and_link.
Proof.
  intros H.
  destruct (H _ _ [] eq_refl eq_refl eq_refl) as (s & Hs & Hin).
  rewrite extract_url_and_link in Hs. injection Hs as <-.
  assert (Hb : "b.org" ∈ ({[ "a.com" ]} ∪ ∅ : gset string)).
  { apply Hin. exists (JStr "http://b.org/"). split.
    - cbn. apply elem_of_cons. right. apply elem_of_cons. by left.
    - exists "http://b.org/", "b.org". by repeat split. }
  apply elem_of_union in Hb as [Hb|Hb].
  - apply elem_of_singleton in Hb. discriminate Hb.
  - by apply not_elem_of_empty in Hb.
Qed.

Lemma extract_domains_total_witness :
  ∃ s, extract_domains Str.lower Urllib.netloc (JObj mixed_example) = Ok s ∧
       ∀ d, d ∈ s →
            d ≠ "" ∧ Str.contains "." d = true ∧ Str.startswith "." d = false
              ∧ Str.lower d = d.
Proof.
  destruct (extract_domains_total Str.lower Urllib.netloc (JObj mixed_example))
    as (s & Hs & H).
  exists s. split; [exact Hs|]. intros d Hd.
  destruct (H d Hd) as (H1 & H2 & H3 & _ & H4).
  repeat split; [exact H1|exact H2|exact H3|].
  apply H4, lower_laws_ascii.
Defined.

Lemma extract_domains_well_shaped_witness :
  ∃ s, extract_domains Str.lower Urllib.netloc (JObj mixed_example) = Ok s ∧
       ∀ d, d ∈ s ↔
            ∃ url, url ∈ flat_map entry_url_or_link
                           [[("url", JStr "https://www.python.org/about")];
                            [("link", JStr "http://docs.rs")];
                            [("title", JStr "no address")]]
                         ++ flat_map entry_url
                           [[("url", JStr "HTTP://WWW.Python.ORG/")];
                            [("url", JStr "http://localhost/")]]
                   ∧ accepted Str.lower Urllib.netloc url d.
Proof.
  apply (extract_domains_well_shaped Str.lower Urllib.netloc mixed_example); reflexivity.
Defined.

(** A netloc without a dot is left out. *)
Example extract_no_dot :
  extract_domains Str.lower Urllib.netloc
    (JObj [("results", JArr [JObj [("url", JStr "http://a")]])])
  = Ok ∅.
Proof. reflexivity. Qed.

(** One entry that is not an object makes the scan of the keys raise; the
    handler returns the set as it is then, empty. *)
Example extract_bad_entry :
  extract_domains Str.lower Urllib.netloc
    (JObj [("results", JArr [JObj [("url", JStr "http://a.com/")]; JNum 5])])
  = Ok ∅.
Proof. reflexivity. Qed.

Example extract_organic_example :
  extract_domains Str.lower Urllib.netloc organic_example = Ok ({[ "example.com" ]} ∪ ∅).
Proof. reflexivity. Qed.

Example extract_mixed_example :
  extract_domains Str.lower Urllib.netloc (JObj mixed_example)
  = Ok {[ "python.org"; "docs.rs" ]}.
Proof. reflexivity. Qed.

End ExtractFacts.

Module AgeFacts.
Import Age.

Section WithParsers.
Variable date_parser_parse : string → option datetime.
Variable strptime : string → string → option datetime.

Lemma process_domain_known whois_data now domain keyword c a :
  Dyn.truthy whois_data = true →
  calculate_domain_age date_parser_parse strptime now whois_data
    = Ok (Some c, Some a) →
  Str.nonempty c = true →
  process_domain date_parser_parse strptime (Ok whois_data) now domain keyword
  = Ok (mk_DomainData keyword domain c a "Success" "" (age_display_of a)).
Proof.
  intros Ht Hc Hn. unfold process_domain. simpl. rewrite Ht. simpl.
  rewrite Hc. simpl. by rewrite Hn.
Qed.






(** C9. When [result.creation_date] is a non-empty list whose first
    element is a string, the age calculation returns the same formatted
    creation date and the same number of days as for the response that
    holds that string alone. *)
Theorem creation_date_list_as_first now kv kv' r r' s rest :
  Dyn.assoc "result" kv = Some (JObj r) →
  Dyn.assoc "result" kv' = Some (JObj r') →
  Dyn.assoc "creation_date" r = Some (JArr (JStr s :: rest)) →
  Dyn.assoc "creation_date" r' = Some (JStr s) →
  calculate_domain_age date_parser_parse strptime now (JObj kv)
  = calculate_domain_age date_parser_parse strptime now (JObj kv').
Proof.
  intros Hr Hr' Hc Hc'.
  unfold calculate_domain_age, calculate_domain_age_body.
  destruct kv as [|p kv0]; [done|]. destruct kv' as [|p' kv0']; [done|].
  cbn [Dyn.truthy negb Dyn.contains Dyn.getitem Py.bind].
  rewrite Hr, Hr'. cbn [Py.bind Dyn.get negb].
  rewrite Hc, Hc'. cbn [Dyn.truthy negb first_candidate].
  destruct s as [|c s']; reflexivity.
Qed.

End WithParsers.




Lemma creation_date_list_as_first_witness :
  calculate_domain_age parse_gives_up strptime_padded
    (mk_datetime 2025 9 15 12 30 0 0 None)
    (JObj [("result",
            JObj [("creation_date",
                   JArr [JStr "1997-09-15 04:00:00"; JStr "1997-09-16"])])])
  = calculate_domain_age parse_gives_up strptime_padded
      (mk_datetime 2025 9 15 12 30 0 0 None) whois_1997.
Proof.
  by apply (creation_date_list_as_first parse_gives_up strptime_padded _ _ _
              [("creation_date", JArr [JStr "1997-09-15 04:00:00"; JStr "1997-09-16"])]
              [("creation_date", JStr "1997-09-15 04:00:00")]
              "1997-09-15 04:00:00" [JStr "1997-09-16"]).
Defined.

End AgeFacts.

Module HttpFacts.
Import Http.

Example whois_always_limited :
  get_whois_data with_keys (limited_then 9 (Response 200 (Ok JNull))) "example.com"
  = (Ok JNull,
     [Post "whois-api6.p.rapidapi.com" "example.com"; Sleep 2;
      Post "whois-api6.p.rapidapi.com" "example.com"; Sleep 4;
      Post "whois-api6.p.rapidapi.com" "example.com"; Sleep 8;
      Post "whois-api6.p.rapidapi.com" "example.com"]).
Proof. reflexivity. Qed.


Lemma whois_loop_starts host domain replies attempt rest :
  ∃ r evs, whois_loop host domain replies (attempt :: rest)
           = (r, Post host domain :: evs).
Proof.
  cbn [whois_loop]. destruct (whois_verdict (replies attempt)); eauto.
  destruct (attempt <? max_retries)%nat; eauto.
  destruct (whois_loop host domain replies rest) as [r evs]. eauto.
Qed.



(** While no reply is a cancellation, the call returns a value. *)
Lemma whois_loop_returns host domain replies attempts :
  (∀ i e, whois_verdict (replies i) ≠ Propagate e) →
  ∃ v evs, whois_loop host domain replies attempts = (Ok v, evs).
Proof.
  intros Hc. induction attempts as [|a rest IH]; cbn [whois_loop]; [eauto|].
  destruct (whois_verdict (replies a)) as [v| |e] eqn:E; [eauto| |by destruct (Hc a e)].
  destruct (a <? max_retries)%nat; [|eauto].
  destruct IH as (v & evs & ->). eauto.
Qed.

(** With a key, the first thing either call does is a request. *)
Lemma search_google_with_key self replies keyword :
  serp_api_key self ≠ "" →
  ∃ r evs, search_google self replies keyword
           = (r, Get (serp_host self) keyword :: evs).
Proof.
  intros Hkey. unfold search_google.
  destruct (serp_api_key self); [done|]. simpl.
  destruct (replies 0%nat) as [status read|e]; [|eauto].
  destruct (status =? 200); [eauto|].
  destruct (status =? 429); [|eauto].
  destruct (replies 1%nat) as [st rd|e]; [|eauto].
  destruct (st =? 200); eauto.
Qed.

(** The constructor never leaves a key empty when the fallback literal is
    not: the guard of the two calls is met only by a researcher whose key
    was emptied after construction. *)
Lemma init_keys_present default_serp default_whois getenv serp whois :
  default_serp ≠ "" → default_whois ≠ "" →
  serp_api_key (init default_serp default_whois getenv serp whois) ≠ ""
  ∧ whois_api_key (init default_serp default_whois getenv serp whois) ≠ "".
Proof.
  intros H1 H2. unfold init, str_or. simpl. split.
  - destruct serp; simpl; [|done]. by destruct (getenv "SERP_API_KEY").
  - destruct whois; simpl; [|done]. by destruct (getenv "WHOIS_API_KEY").
Qed.

Lemma get_whois_data_with_key self replies domain :
  whois_api_key self ≠ "" →
  ∃ r evs, get_whois_data self replies domain
           = (r, Post (whois_host self) domain :: evs).
Proof.
  intros Hkey. unfold get_whois_data.
  destruct (whois_api_key self); [done|]. simpl (negb _). cbv iota.
  apply whois_loop_starts.
Qed.

(** What the handlers of [search_google] let out is not an [Exception]. *)
Lemma search_google_raises self replies keyword e :
  serp_api_key self ≠ "" →
  (search_google self replies keyword).1 = Raise e → is_Exception e = false.
Proof.
  intros Hkey. unfold search_google.
  destruct (serp_api_key self); [done|]. simpl (negb _). cbv iota.
  assert (Hc : ∀ x, search_caught x = Raise e → is_Exception e = false).
  { intros x. unfold search_caught. destruct (is_Exception x) eqn:E; [done|].
    by intros [= <-]. }
  assert (Hr : ∀ rd, search_read rd = Raise e → is_Exception e = false).
  { intros [v|x]; simpl; [done|apply Hc]. }
  destruct (replies 0%nat) as [status read|x]; simpl; [|apply Hc].
  destruct (status =? 200); simpl; [apply Hr|].
  destruct (status =? 429); simpl; [|done].
  destruct (replies 1%nat) as [st rd|x]; simpl; [|apply Hc].
  destruct (st =? 200); simpl; [apply Hr|done].
Qed.

(** What the retry loop of [get_whois_data] lets out is not an
    [Exception]. *)
Lemma whois_loop_raises host domain replies e : ∀ attempts,
  (whois_loop host domain replies attempts).1 = Raise e → is_Exception e = false.
Proof.
  induction attempts as [|a rest IH]; cbn [whois_loop]; [done|].
  destruct (whois_verdict (replies a)) as [v| |x] eqn:E; simpl; [done| |].
  - destruct (a <? max_retries)%nat; [|done].
    destruct (whois_loop host domain replies rest) as [r evs]. exact IH.
  - intros [= <-].
    assert (Hc : ∀ y, whois_caught y = Propagate x → is_Exception x = false).
    { intros y. unfold whois_caught, is_Exception.
      destruct (cls y) eqn:Ey; try done. by intros [= <-]; rewrite Ey. }
    unfold whois_verdict in E. destruct (replies a) as [status read|y]; [|by eapply Hc].
    destruct (status =? 200).
    { destruct read as [v|y]; [done|by eapply Hc]. }
    destruct (status =? 429); [done|]. destruct (status =? 403); [done|].
    destruct read as [v|y]; [done|by eapply Hc].
Qed.

(** C7, as the code has it. The constructor takes each key from its
    argument, else from the environment, else from a built-in default, and
    the two defaults of the source are not empty. So a researcher has both
    keys, whatever the caller and the environment supply: every search
    call and every WHOIS call begins with a request to its host, and what
    either call raises is never the configuration error, nor any other
    [Exception]. The guard of each call raises the configuration error
    with no request made exactly when the key attribute is empty, which no
    researcher is built with. *)
Theorem keys_fall_back default_serp default_whois getenv serp whois :
  default_serp ≠ "" → default_whois ≠ "" →
  let self := init default_serp default_whois getenv serp whois in
  serp_api_key self
    = str_or serp (str_or (getenv "SERP_API_KEY") default_serp)
  ∧ whois_api_key self
    = str_or whois (str_or (getenv "WHOIS_API_KEY") default_whois)
  ∧ serp_api_key self ≠ "" ∧ whois_api_key self ≠ ""
  ∧ (∀ replies keyword,
       (∃ r evs, search_google self replies keyword
                 = (r, Get "google-search116.p.rapidapi.com" keyword :: evs))
       ∧ (∀ e, (search_google self replies keyword).1 = Raise e →
               is_Exception e = false))
  ∧ (∀ replies domain,
       (∃ r evs, get_whois_data self replies domain
                 = (r, Post "whois-api6.p.rapidapi.com" domain :: evs))
       ∧ (∀ e, (get_whois_data self replies domain).1 = Raise e →
               is_Exception e = false))
  ∧ (∀ (other : researcher) replies subject,
       (serp_api_key other = "" ↔
        search_google other replies subject = (Raise serp_key_required, []))
       ∧ (whois_api_key other = "" ↔
          get_whois_data other replies subject = (Raise whois_key_required, []))).
Proof.
  intros H1 H2 self.
  destruct (init_keys_present default_serp default_whois getenv serp whois H1 H2)
    as [Hs Hw]. fold self in Hs, Hw.
  split; [reflexivity|]. split; [reflexivity|].
  split; [exact Hs|]. split; [exact Hw|].
  split; [|split].
  - intros replies keyword. split.
    + exact (search_google_with_key self replies keyword Hs).
    + intros e. by apply search_google_raises.
  - intros replies domain. split.
    + exact (get_whois_data_with_key self replies domain Hw).
    + intros e. unfold get_whois_data.
      destruct (whois_api_key self); [done|]. simpl (negb _). cbv iota.
      apply whois_loop_raises.
  - intros other replies subject. split; split.
    + intros Hk. unfold search_google. by rewrite Hk.
    + intros Hr. destruct (string_dec (serp_api_key other) "") as [|Hk]; [done|].
      destruct (search_google_with_key other replies subject Hk) as (r & evs & E).
      rewrite E in Hr. discriminate Hr.
    + intros Hk. unfold get_whois_data. by rewrite Hk.
    + intros Hr. destruct (string_dec (whois_api_key other) "") as [|Hk]; [done|].
      destruct (get_whois_data_with_key other replies subject Hk) as (r & evs & E).
      rewrite E in Hr. discriminate Hr.
Qed.

Lemma keys_fall_back_witness :
  serp_api_key (init "built-in-serp-key" "built-in-whois-key" no_environment "" "")
  = "built-in-serp-key"
  ∧ (∃ r evs,
       search_google
         (init "built-in-serp-key" "built-in-whois-key" no_environment "" "")
         (limited_then 0 (Response 200 (Ok JNull))) "nike"
       = (r, Get "google-search116.p.rapidapi.com" "nike" :: evs))
  ∧ (∃ r evs,
       get_whois_data
         (init "built-in-serp-key" "built-in-whois-key" no_environment "" "")
         (limited_then 0 (Response 200 (Ok JNull))) "nike.com"
       = (r, Post "whois-api6.p.rapidapi.com" "nike.com" :: evs)).
Proof.
  assert (H1 : "built-in-serp-key" ≠ "") by discriminate.
  assert (H2 : "built-in-whois-key" ≠ "") by discriminate.
  destruct (keys_fall_back "built-in-serp-key" "built-in-whois-key" no_environment
              "" "" H1 H2) as (Hk & _ & _ & _ & Hsearch & Hwhois & _).
  split; [exact Hk|]. split.
  - exact (proj1 (Hsearch (limited_then 0 (Response 200 (Ok JNull))) "nike")).
  - exact (proj1 (Hwhois (limited_then 0 (Response 200 (Ok JNull))) "nike.com")).
Defined.

(** C7, counterexample: with no key given and none in the environment, the
    researcher that [__init__] builds holds its built-in keys, and both
    calls send their request. Whatever the two built-in keys are, as long
    as they are not empty, the sentence of the specification fails. *)
Lemma keys_mandatory_counterexample :
  ¬ ∃ default_serp default_whois,
      (default_serp ≠ "" ∨ default_whois ≠ "")
      ∧ spec_keys_mandatory default_serp default_whois no_environment "" "".
Proof.
  intros (ds & dw & Hne & Hserp & Hwhois).
  specialize (Hserp eq_refl eq_refl (limited_then 0 (Response 200 (Ok JNull))) "nike").
  specialize (Hwhois eq_refl eq_refl (limited_then 0 (Response 200 (Ok JNull)))
                "nike.com").
  destruct Hne as [Hne|Hne].
  - destruct ds as [|c ds]; [done|]. discriminate Hserp.
  - destruct dw as [|c dw]; [done|]. discriminate Hwhois.
Qed.

End HttpFacts.

Module ResearchFacts.
Import Age Extract Research Passes.


Lemma extract_domains_returns str_lower netloc_of search_results :
  ∃ s, extract_domains str_lower netloc_of search_results = Ok s.
Proof.
  unfold extract_domains.
  destruct (Dyn.truthy search_results); simpl; [|eauto].
  pose proof (ExtractFacts.ordinary_collect_urls search_results) as Hc.
  destruct (collect_urls search_results) as [urls|e]; simpl in *.
  - destruct (ExtractFacts.add_urls_spec str_lower netloc_of urls ∅) as (D & -> & _). eauto.
  - rewrite Hc. eauto.
Qed.

Section WithLibraries.

Variable str_lower : string → string.
Variable netloc_of : string → option string.
Variable date_parser_parse : string → option datetime.
Variable strptime : string → string → option datetime.
Variable set_order : gset string → list string.

Lemma ordinary_calculate_body now whois_data :
  ordinary (calculate_domain_age_body date_parser_parse strptime now whois_data).
Proof.
  unfold calculate_domain_age_body.
  apply ExtractFacts.ordinary_bind; [apply ExtractFacts.ordinary_getitem|].
  intros result _. apply ExtractFacts.ordinary_bind.
  { by destruct result. }
  intros raw _. destruct (negb (Dyn.truthy raw)); [done|].
  destruct (negb (Dyn.truthy (first_candidate raw))); [done|].
  by destruct (parse_creation_date _ _ _).
Qed.

Lemma ordinary_calculate now whois_data :
  ordinary (calculate_domain_age date_parser_parse strptime now whois_data).
Proof.
  unfold calculate_domain_age.
  destruct (Dyn.truthy whois_data); simpl; [|done].
  pose proof (ExtractFacts.ordinary_contains "result" whois_data) as Hc.
  destruct (Dyn.contains "result" whois_data) as [[]|e]; simpl in *; try done.
  pose proof (ordinary_calculate_body now whois_data) as Hb.
  destruct (calculate_domain_age_body _ _ now whois_data) as [a|e]; simpl in *; [done|].
  by rewrite Hb.
Qed.

(** The record of one domain carries the tag of its first failing stage. *)
Lemma process_domain_outcome whois now d k :
  ordinary whois →
  ∃ r, process_domain date_parser_parse strptime whois now d k = Ok r
       ∧ keyword r = k ∧ domain r = d
       ∧ status r = tag (domain_outcome date_parser_parse strptime whois now).
Proof.
  intros Ho. unfold process_domain, domain_outcome.
  destruct whois as [w|e]; simpl in *.
  2:{ rewrite Ho. eauto. }
  destruct (Dyn.truthy w); simpl; [|eauto].
  pose proof (ordinary_calculate now w) as Hc.
  destruct (calculate_domain_age _ _ now w) as [[[c|] [a|]]|e]; simpl in *; eauto.
  - destruct (Str.nonempty c); eauto.
  - rewrite Hc. eauto.
Qed.

Lemma append_gathered_all keyword tasks records : ∀ results,
  Forall2 (fun t r => t = Ok r) tasks records →
  append_gathered keyword tasks results = (results ++ records, None).
Proof.
  intros results H. revert results.
  induction H as [|t r tasks records -> _ IH]; intros results; simpl.
  - by rewrite app_nil_r.
  - rewrite IH. by rewrite <- app_assoc.
Qed.

Lemma task_outcome env d k :
  undisturbed env →
  ∃ r, process_domain_with_semaphore date_parser_parse strptime env d k = Ok r
       ∧ keyword r = k ∧ domain r = d
       ∧ status r
         = tag (domain_outcome date_parser_parse strptime (whois env d) (now env)).
Proof.
  intros (Hc & _ & Hd & _ & Hw). unfold process_domain_with_semaphore.
  rewrite Hc.
  destruct (process_domain_outcome (whois env d) (now env) d k (Hw d))
    as (r & -> & H). simpl. rewrite Hd. simpl. eauto.
Qed.


Lemma no_task_cancelled env (selected : list string) :
  (∀ c, cancelled_at env c = false) →
  existsb (fun d => cancelled_at env (BeforeTask d)) selected = false.
Proof.
  intros Hc. induction selected as [|d l IH]; simpl; [done|]. by rewrite Hc, IH.
Qed.






End WithLibraries.

Lemma two_domains_undisturbed : undisturbed two_domains_pass.
Proof.
  repeat split; try done. intros d. simpl.
  by destruct (String.eqb d "nike.com").
Qed.


Example two_domains_statuses :
  map status
    (fst (keyword_iteration Str.lower Urllib.netloc parse_gives_up strptime_padded elements
            two_domains_pass 5 "nike" []))
  = ["WHOIS Failed"; "Success"].
Proof. reflexivity. Qed.



(** No keyword: the loop does nothing and the call returns the empty
    list. *)
Example research_no_keywords envs max_domains_per_keyword :
  research_keywords Str.lower Urllib.netloc parse_gives_up strptime_padded elements
    envs false (Ok tt) [] max_domains_per_keyword
  = Ok [].
Proof. reflexivity. Qed.

End ResearchFacts.

Module GateFacts.
Import Gate.

Example five_tasks_run :
  run (init 5) five_tasks_schedule
  = Some (mk_state 0 [Finished; Lookup; Lookup; Waiting; Created] false).
Proof. reflexivity. Qed.

Lemma holders_insert (l : list phase) i p p' :
  l !! i = Some p →
  (holders (<[i := p']> l) + (if holding p then 1 else 0)
   = holders l + (if holding p' then 1 else 0))%nat.
Proof.
  revert i. induction l as [|q l IH]; intros [|i] H; simpl in *; try done.
  - injection H as ->. unfold holders. rewrite !filter_cons.
    destruct (holding p) eqn:Ep, (holding p') eqn:Ep';
      repeat case_decide; try congruence; simpl; lia.
  - specialize (IH i H). unfold holders in *. rewrite !filter_cons.
    case_decide; simpl; lia.
Qed.

Lemma holders_app l1 l2 : holders (l1 ++ l2) = (holders l1 + holders l2)%nat.
Proof. unfold holders. by rewrite filter_app, length_app. Qed.

Lemma holders_created n : holders (replicate n Created) = 0%nat.
Proof. induction n as [|n IH]; [done|]. simpl. unfold holders in *. by rewrite filter_cons. Qed.

Lemma in_flight_le_holders s : (in_flight s ≤ holders (tasks s))%nat.
Proof.
  unfold in_flight, holders. induction (tasks s) as [|p l IH]; [done|].
  rewrite !filter_cons. destruct p; repeat case_decide; simpl in *; try congruence; lia.
Qed.

Lemma step_balanced s a s' : balanced s → step s a = Some s' → balanced s'.
Proof.
  unfold balanced. intros Hb Hs.
  destruct a as [i|i|i raised|i|i| |n]; simpl in Hs.
  - destruct (tasks s !! i) as [[]|] eqn:Ei; try discriminate.
    pose proof (fun p' => holders_insert (tasks s) i Created p' Ei) as Hi.
    destruct (cancel_set s).
    + injection Hs as <-. simpl. specialize (Hi Finished). simpl in Hi. lia.
    + destruct (value s) eqn:Ev; injection Hs as <-; simpl.
      * specialize (Hi Waiting). simpl in Hi. lia.
      * specialize (Hi Lookup). simpl in Hi. lia.
  - destruct (tasks s !! i) as [[]|] eqn:Ei; try discriminate.
    destruct (value s) eqn:Ev; [discriminate|]. injection Hs as <-. simpl.
    pose proof (holders_insert _ i Waiting Lookup Ei) as Hi. simpl in Hi. lia.
  - destruct (tasks s !! i) as [[]|] eqn:Ei; try discriminate.
    destruct raised; injection Hs as <-; simpl.
    + pose proof (holders_insert _ i Lookup Finished Ei) as Hi. simpl in Hi. lia.
    + pose proof (holders_insert _ i Lookup Pacing Ei) as Hi. simpl in Hi. lia.
  - destruct (tasks s !! i) as [[]|] eqn:Ei; try discriminate.
    injection Hs as <-. simpl.
    pose proof (holders_insert _ i Pacing Finished Ei) as Hi. simpl in Hi. lia.
  - destruct (tasks s !! i) as [[]|] eqn:Ei; try discriminate;
      injection Hs as <-; simpl;
      pose proof (holders_insert _ i _ Finished Ei) as Hi; simpl in Hi; lia.
  - injection Hs as <-. simpl. lia.
  - destruct (all_finished (tasks s)); [|discriminate]. injection Hs as <-. simpl.
    rewrite holders_app, holders_created. lia.
Qed.

Lemma run_balanced acts : ∀ s s', balanced s → run s acts = Some s' → balanced s'.
Proof.
  induction acts as [|a acts IH]; intros s s' Hb Hr; simpl in Hr.
  - by injection Hr as <-.
  - destruct (step s a) as [s1|] eqn:Es; [|discriminate].
    eapply IH; [|exact Hr]. by eapply step_balanced.
Qed.

Lemma init_balanced n : balanced (init n).
Proof. unfold balanced, init. simpl. by rewrite holders_created. Qed.

(** C2. Whatever the number of tasks per keyword and whatever the order in
    which the scheduler runs them, at most 2 WHOIS lookups of a job are
    under way at any time: the one semaphore of the job admits them. *)
Theorem at_most_two_lookups (n : nat) (acts : list action) (s : state) :
  run (init n) acts = Some s →
  (in_flight s ≤ 2)%nat.
Proof.
  intros Hr.
  pose proof (run_balanced acts _ _ (init_balanced n) Hr) as Hb.
  pose proof (in_flight_le_holders s) as Hle.
  unfold balanced, initial_value in Hb. lia.
Qed.

Lemma at_most_two_lookups_witness :
  (in_flight (mk_state 0 [Finished; Lookup; Lookup; Waiting; Created] false) ≤ 2)%nat.
Proof.
  apply (at_most_two_lookups 5 five_tasks_schedule). reflexivity.
Defined.

(** The bound is met, and a task that finds the counter at 0 waits. *)
Example two_lookups_reached :
  in_flight (mk_state 0 [Finished; Lookup; Lookup; Waiting; Created] false) = 2%nat.
Proof. reflexivity. Qed.

End GateFacts.

Module AppFacts.
Import App.

Lemma remove_all_tasks ids reg id :
  research_tasks (foldr remove reg ids) !! id
  = if decide (id ∈ ids) then None else research_tasks reg !! id.
Proof.
  induction ids as [|x ids IH]; simpl.
  - destruct (decide (id ∈ [])) as [H|H]; [by apply elem_of_nil in H|done].
  - rewrite lookup_delete, IH.
    destruct (decide (x = id)) as [->|Hne].
    + rewrite decide_True; [done|by left].
    + destruct (decide (id ∈ ids)) as [Hin|Hin].
      * rewrite decide_True; [done|by right].
      * rewrite decide_False; [done|]. intros [->|?]%elem_of_cons; done.
Qed.

Lemma remove_all_objects ids reg id :
  research_task_objects (foldr remove reg ids) !! id
  = if decide (id ∈ ids) then None else research_task_objects reg !! id.
Proof.
  induction ids as [|x ids IH]; simpl.
  - destruct (decide (id ∈ [])) as [H|H]; [by apply elem_of_nil in H|done].
  - rewrite lookup_delete, IH.
    destruct (decide (x = id)) as [->|Hne].
    + rewrite decide_True; [done|by left].
    + destruct (decide (id ∈ ids)) as [Hin|Hin].
      * rewrite decide_True; [done|by right].
      * rewrite decide_False; [done|]. intros [->|?]%elem_of_cons; done.
Qed.

Lemma to_remove_spec now reg id :
  id ∈ (filter (fun p => expired now p.2 = true)
               (map_to_list (research_tasks reg))).*1
  ↔ ∃ j, research_tasks reg !! id = Some j ∧ expired now j = true.
Proof.
  rewrite list_elem_of_fmap. split.
  - intros ([id' j] & -> & H). apply list_elem_of_filter in H as [He H].
    apply elem_of_map_to_list in H. by exists j.
  - intros (j & Hj & He). exists (id, j). split; [done|].
    apply list_elem_of_filter. split; [done|]. by apply elem_of_map_to_list.
Qed.

Lemma cleanup_tasks now reg id :
  research_tasks (cleanup_old_tasks now reg) !! id
  = match research_tasks reg !! id with
    | Some j => if expired now j then None else Some j
    | None => None
    end.
Proof.
  unfold cleanup_old_tasks. rewrite remove_all_tasks.
  destruct (research_tasks reg !! id) as [j|] eqn:Ej.
  - destruct (expired now j) eqn:Ee.
    + rewrite decide_True; [done|]. apply to_remove_spec. eauto.
    + rewrite decide_False; [done|]. intros (j' & Hj & He)%to_remove_spec. congruence.
  - by case_decide.
Qed.

Lemma cleanup_objects now reg id :
  research_task_objects (cleanup_old_tasks now reg) !! id
  = match research_tasks reg !! id with
    | Some j => if expired now j then None else research_task_objects reg !! id
    | None => research_task_objects reg !! id
    end.
Proof.
  unfold cleanup_old_tasks. rewrite remove_all_objects.
  destruct (research_tasks reg !! id) as [j|] eqn:Ej.
  - destruct (expired now j) eqn:Ee.
    + rewrite decide_True; [done|]. apply to_remove_spec. eauto.
    + rewrite decide_False; [done|]. intros (j' & Hj & He)%to_remove_spec. congruence.
  - rewrite decide_False; [done|]. intros (j' & Hj & He)%to_remove_spec. congruence.
Qed.

Lemma expired_spec now j :
  expired now j = true
  ↔ (status j = "completed" ∨ status j = "error" ∨ status j = "cancelled")
    ∧ seconds 3600 < now - created_at j.
Proof.
  unfold expired, is_terminal, total_seconds_gt, seconds.
  rewrite andb_true_iff, !orb_true_iff, !String.eqb_eq, Z.ltb_lt. tauto.
Qed.

(** C4, as the code has it. The sweep, run by the periodic task and by the
    health probe, deletes exactly the jobs that are in a terminal state
    ([completed], [error] or [cancelled]) and whose creation time
    [created_at] lies more than 3600 seconds before the sweep; a status
    query after the sweep does not find those, and returns every other job
    as it was. *)
Theorem sweep_by_creation_time now reg task_id :
  get_task_status (cleanup_old_tasks now reg) task_id
  = match get_task_status reg task_id with
    | Some j => if expired now j then None else Some j
    | None => None
    end
  ∧ get_task_status (health_check now reg).1 task_id
    = get_task_status (cleanup_old_tasks now reg) task_id
  ∧ ∀ j, expired now j = true
         ↔ (status j = "completed" ∨ status j = "error" ∨ status j = "cancelled")
           ∧ seconds 3600 < now - created_at j.
Proof.
  split; [|split].
  - unfold get_task_status. apply cleanup_tasks.
  - reflexivity.
  - apply expired_spec.
Qed.

(** C4, counterexample: a job created at 0:00:00 that completes at 2:00:00
    is deleted by a sweep at 2:00:01, one second after it became
    terminal. *)
Lemma retention_counterexample :
  ¬ spec_retention long_job "job-1" (seconds 7201).
Proof.
  intros H.
  destruct (run empty long_job) as [reg|] eqn:Hr; [|by vm_compute in Hr].
  destruct (research_tasks reg !! "job-1") as [j|] eqn:Hj.
  2:{ vm_compute in Hr. injection Hr as <-. by vm_compute in Hj. }
  assert (Hsince : terminal_since empty long_job "job-1" None = Some (seconds 7200)) by (by vm_compute).
  specialize (H reg j (seconds 7200) Hr Hj Hsince).
  assert (Hgone : get_task_status (cleanup_old_tasks (seconds 7201) reg) "job-1" = None).
  { vm_compute in Hr. injection Hr as <-. by vm_compute. }
  apply H in Hgone as [_ Hlt]. unfold seconds in Hlt. lia.
Qed.

Lemma consistent_empty : consistent empty.
Proof. intros id. unfold empty. simpl. by rewrite !lookup_empty. Qed.

Lemma update_consistent tid f co co' reg :
  consistent reg →
  research_task_objects reg !! tid = Some co →
  (∀ j, coherent j co → coherent (f j) co') →
  consistent (update tid f co' reg).
Proof.
  intros Hc Hco Hf id. specialize (Hc id). unfold update. simpl.
  rewrite lookup_alter, lookup_insert.
  destruct (decide (tid = id)) as [->|Hne]; [|done].
  rewrite Hco in Hc. destruct (research_tasks reg !! id) as [j|]; simpl; [|done].
  by apply Hf.
Qed.

Lemma coherent_begin n m j : coherent j (Pending n m) → coherent (begin n m j) Suspended.
Proof. intros (_ & Hr & Hc). simpl. auto. Qed.

Lemma coherent_progress c msg j :
  coherent j Suspended → coherent (progress_callback c msg j) Suspended.
Proof.
  unfold progress_callback. intros (Hr & Hs).
  destruct (cancelled_event j) eqn:E; simpl; rewrite ?E; auto.
Qed.

Lemma coherent_domain_progress j :
  coherent j Suspended → coherent (domain_progress_callback j) Suspended.
Proof.
  unfold domain_progress_callback. intros (Hr & Hs).
  destruct (cancelled_event j) eqn:E; simpl; rewrite ?E; auto.
Qed.

Lemma coherent_finish o j : coherent j Suspended → coherent (finish o j) Done.
Proof.
  intros (Hr & Hs). unfold finish.
  destruct o as [rs| |m]; destruct (cancelled_event j); simpl; auto.
Qed.

Lemma coherent_cancel j co : coherent j co → coherent (cancel j) co.
Proof.
  unfold cancel. destruct (String.eqb_spec (status j) "running") as [E|E]; [|done].
  destruct co; simpl; rewrite E.
  - by intros [? _].
  - intros (Hr & _). auto.
  - intros [?|(_ & [?|?])]; done.
Qed.

Lemma step_consistent t reg e reg' :
  consistent reg → step t reg e = Some reg' → consistent reg'.
Proof.
  intros Hc Hs. destruct e as [tid n m|tid|tid c msg|tid|tid o|tid| |]; simpl in Hs.
  - destruct (research_tasks reg !! tid) eqn:E1; [done|].
    destruct (research_task_objects reg !! tid) eqn:E2; [done|].
    injection Hs as <-. intros id. simpl. rewrite !lookup_insert.
    destruct (decide (tid = id)); [by simpl|apply Hc].
  - destruct (research_task_objects reg !! tid) as [[n m| |]|] eqn:E;
      try discriminate; injection Hs as <-; [|done].
    eapply update_consistent; eauto using coherent_begin.
  - destruct (research_task_objects reg !! tid) as [[n m| |]|] eqn:E;
      try discriminate; injection Hs as <-; [|done].
    eapply update_consistent; eauto using coherent_progress.
  - destruct (research_task_objects reg !! tid) as [[n m| |]|] eqn:E;
      try discriminate; injection Hs as <-; [|done].
    eapply update_consistent; eauto using coherent_domain_progress.
  - destruct (research_task_objects reg !! tid) as [[n m| |]|] eqn:E;
      try discriminate; injection Hs as <-; [|done].
    eapply update_consistent; eauto using coherent_finish.
  - injection Hs as <-. intros id. specialize (Hc id). simpl.
    rewrite lookup_alter. destruct (decide (tid = id)) as [->|]; [|done].
    destruct (research_tasks reg !! id) as [j|]; simpl; [|done].
    destruct (research_task_objects reg !! id); [|done]. by apply coherent_cancel.
  - injection Hs as <-. intros id. specialize (Hc id).
    rewrite cleanup_tasks, cleanup_objects.
    destruct (research_tasks reg !! id) as [j|]; [|done].
    by destruct (expired t j).
  - injection Hs as <-. intros id. specialize (Hc id). simpl.
    rewrite cleanup_tasks, cleanup_objects.
    destruct (research_tasks reg !! id) as [j|]; [|done].
    by destruct (expired t j).
Qed.

Lemma run_consistent evs : ∀ reg reg',
  consistent reg → run reg evs = Some reg' → consistent reg'.
Proof.
  induction evs as [|[t e] evs IH]; intros reg reg' Hc Hr; simpl in Hr.
  - by injection Hr as <-.
  - destruct (step t reg e) as [reg1|] eqn:Es; [|done].
    eapply IH; [|done]. by eapply step_consistent.
Qed.

(** What a step can do to one entry. *)
Lemma step_entry t reg e reg' id j :
  step t reg e = Some reg' →
  research_tasks reg !! id = Some j →
  research_tasks reg' !! id = None
  ∨ research_tasks reg' !! id = Some j
  ∨ (∃ n m, research_task_objects reg !! id = Some (Pending n m)
            ∧ research_tasks reg' !! id = Some (begin n m j))
  ∨ (∃ c msg, research_task_objects reg !! id = Some Suspended
              ∧ research_tasks reg' !! id = Some (progress_callback c msg j))
  ∨ (research_task_objects reg !! id = Some Suspended
     ∧ research_tasks reg' !! id = Some (domain_progress_callback j))
  ∨ (∃ o, e = Finish id o ∧ research_task_objects reg !! id = Some Suspended
          ∧ research_tasks reg' !! id = Some (finish o j))
  ∨ research_tasks reg' !! id = Some (cancel j).
Proof.
  intros Hs Hj. destruct e as [tid n m|tid|tid c msg|tid|tid o|tid| |]; simpl in Hs.
  - destruct (research_tasks reg !! tid) eqn:E1; [done|].
    destruct (research_task_objects reg !! tid) eqn:E2; [done|].
    injection Hs as <-. simpl. right; left.
    rewrite lookup_insert_ne; [done|congruence].
  - destruct (research_task_objects reg !! tid) as [[n m| |]|] eqn:E;
      try discriminate; injection Hs as <-; [|by right; left].
    simpl. rewrite lookup_alter. destruct (decide (tid = id)) as [->|]; [|by right; left].
    rewrite Hj. simpl. right; right; left. eauto.
  - destruct (research_task_objects reg !! tid) as [[n m| |]|] eqn:E;
      try discriminate; injection Hs as <-; [|by right; left].
    simpl. rewrite lookup_alter. destruct (decide (tid = id)) as [->|]; [|by right; left].
    rewrite Hj. simpl. right; right; right; left. eauto.
  - destruct (research_task_objects reg !! tid) as [[n m| |]|] eqn:E;
      try discriminate; injection Hs as <-; [|by right; left].
    simpl. rewrite lookup_alter. destruct (decide (tid = id)) as [->|]; [|by right; left].
    rewrite Hj. simpl. right; right; right; right; left. eauto.
  - destruct (research_task_objects reg !! tid) as [[n m| |]|] eqn:E;
      try discriminate; injection Hs as <-; [|by right; left].
    simpl. rewrite lookup_alter. destruct (decide (tid = id)) as [->|]; [|by right; left].
    rewrite Hj. simpl. right; right; right; right; right; left. eauto.
  - injection Hs as <-. simpl. rewrite lookup_alter.
    destruct (decide (tid = id)) as [->|]; [|by right; left].
    rewrite Hj. simpl. by repeat right.
  - injection Hs as <-. rewrite cleanup_tasks, Hj. destruct (expired t j); auto.
  - injection Hs as <-. simpl. rewrite cleanup_tasks, Hj. destruct (expired t j); auto.
Qed.

Lemma entry_coherent reg id j :
  consistent reg → research_tasks reg !! id = Some j →
  ∃ co, research_task_objects reg !! id = Some co ∧ coherent j co.
Proof.
  intros Hc Hj. specialize (Hc id). rewrite Hj in Hc.
  destruct (research_task_objects reg !! id) as [co|]; [eauto|done].
Qed.

(** The end of [run_research] on an entry that is still in the registry:
    the step is possible only with the coroutine suspended in its [await],
    and it writes [finish o j]. *)
Lemma step_finish t reg reg' id o j :
  consistent reg →
  step t reg (Finish id o) = Some reg' →
  research_tasks reg !! id = Some j →
  coherent j Suspended ∧ research_tasks reg' !! id = Some (finish o j).
Proof.
  intros Hc Hs Hj. destruct (entry_coherent reg id j Hc Hj) as (co & Hco & Hcoh).
  simpl in Hs. rewrite Hco in Hs. destruct co; try discriminate Hs.
  injection Hs as <-. split; [exact Hcoh|].
  unfold update. simpl. rewrite lookup_alter.
  destruct (decide (id = id)); [|done]. by rewrite Hj.
Qed.

(** C1. At every point of every run, the [results] of a job are empty
    unless its status is [completed]; a job that is [cancelled] or [error]
    has empty [results]; a [completed] job no longer changes (the sweep may
    delete it); a step that changes [results], or that takes the status
    to [completed], is the end of [run_research] on a returned list with the
    cancellation event not set: it takes the job from [running], with
    [results] still empty, to [completed] with the whole list. And the end
    of [run_research] does commit: on a job whose event is not set, a
    returned list [rs] is stored whole and the status becomes [completed]
    (the error message is left as it was), and an exception with message
    [m] gives [error] with that message and no results; on a job whose
    event is set, and on [CancelledError], it gives [cancelled] with the
    message of a cancellation and no results. *)
Theorem results_committed_once evs reg t e reg' task_id j :
  run empty evs = Some reg →
  step t reg e = Some reg' →
  research_tasks reg !! task_id = Some j →
  (results j = [] ∨ status j = "completed")
  ∧ (status j = "cancelled" ∨ status j = "error" → results j = [])
  ∧ (status j = "completed" →
     research_tasks reg' !! task_id = Some j ∨ research_tasks reg' !! task_id = None)
  ∧ (∀ j', research_tasks reg' !! task_id = Some j' →
           results j' ≠ results j
           ∨ (status j ≠ "completed" ∧ status j' = "completed") →
           ∃ rs, e = Finish task_id (Returned rs)
                 ∧ status j = "running" ∧ cancelled_event j = false
                 ∧ results j = []
                 ∧ status j' = "completed" ∧ results j' = rs)
  ∧ (∀ o, e = Finish task_id o →
          ∃ j', research_tasks reg' !! task_id = Some j'
                ∧ results j = []
                ∧ (status j = "running" ∧ cancelled_event j = false
                   ∨ status j = "cancelled" ∧ cancelled_event j = true)
                ∧ match o, cancelled_event j with
                  | Returned rs, false =>
                      status j' = "completed" ∧ results j' = rs
                      ∧ error j' = error j
                  | RaisedException m, false =>
                      status j' = "error" ∧ results j' = []
                      ∧ error j' = Some m
                  | _, _ =>
                      status j' = "cancelled" ∧ results j' = []
                      ∧ error j' = Some "Task cancelled by user"
                  end).
Proof.
  intros Hrun Hstep Hj.
  pose proof (run_consistent evs _ _ consistent_empty Hrun) as Hc.
  destruct (entry_coherent reg task_id j Hc Hj) as (co & Hco & Hcoh).
  pose proof (step_entry t reg e reg' task_id j Hstep Hj) as Hcases.
  assert (H1 : results j = [] ∨ status j = "completed").
  { destruct co; simpl in Hcoh; intuition. }
  split; [exact H1|]. split.
  { intros [E|E]; destruct H1 as [?|H1]; try done; rewrite E in H1; discriminate. }
  split; [|split].
  3:{ intros o ->.
      destruct (step_finish t reg reg' task_id o j Hc Hstep Hj) as ((Hr & Hst) & Hj').
      exists (finish o j). split; [exact Hj'|]. split; [exact Hr|].
      split; [exact Hst|]. unfold finish.
      destruct o as [rs| |m]; destruct (cancelled_event j); simpl; auto. }
  - intros Hdone.
    assert (co = Done) as ->.
    { destruct co; simpl in Hcoh; [| |done].
      - destruct Hcoh as (E & _). rewrite E in Hdone. discriminate.
      - destruct Hcoh as (_ & [[E _]|[E _]]); rewrite E in Hdone; discriminate. }
    destruct Hcases as [?|[?|[(n & m & Hp & _)|[(c & msg & Hp & _)|[(Hp & _)
                        |[(o & _ & Hp & _)|Hcan]]]]]]; auto; try congruence.
    left. rewrite Hcan. f_equal. unfold cancel. by rewrite Hdone.
  - intros j' Hj' Hch.
    destruct Hcases as [Hn|[Hs|[(n & m & Hp & Hb)|[(c & msg & Hp & Hb)|[(Hp & Hb)
                        |[(o & -> & Hp & Hb)|Hcan]]]]]].
    + congruence.
    + rewrite Hs in Hj'. injection Hj' as <-. naive_solver.
    + rewrite Hb in Hj'. injection Hj' as <-. simpl in Hch.
      destruct Hch as [?|[_ ?]]; done.
    + rewrite Hb in Hj'. injection Hj' as <-. unfold progress_callback in Hch.
      destruct (cancelled_event j); simpl in Hch; naive_solver.
    + rewrite Hb in Hj'. injection Hj' as <-. unfold domain_progress_callback in Hch.
      destruct (cancelled_event j); simpl in Hch; naive_solver.
    + rewrite Hb in Hj'. injection Hj' as <-.
      rewrite Hco in Hp. injection Hp as ->.
      destruct Hcoh as (Hr & Hst). unfold finish in *.
      destruct o as [rs| |m]; destruct (cancelled_event j) eqn:Ev; simpl in *;
        try (destruct Hch as [?|[_ ?]]; done).
      exists rs. destruct Hst as [[? _]|[_ ?]]; [|done]. by repeat split.
    + rewrite Hcan in Hj'. injection Hj' as <-. unfold cancel in Hch.
      destruct (String.eqb (status j) "running"); simpl in Hch;
        destruct Hch as [?|[? ?]]; done.
Qed.

Lemma results_committed_once_witness :
  ∃ reg reg' j j',
    run empty (removelast long_job) = Some reg
    ∧ step (seconds 7200) reg
        (Finish "job-1"
           (Returned [DomainData5 "nike" "nike.com" "1995-03-16" 11141 "Success"]))
      = Some reg'
    ∧ research_tasks reg !! "job-1" = Some j
    ∧ research_tasks reg' !! "job-1" = Some j'
    ∧ status j = "running" ∧ results j = []
    ∧ status j' = "completed"
    ∧ results j' = [DomainData5 "nike" "nike.com" "1995-03-16" 11141 "Success"].
Proof.
  destruct (run empty (removelast long_job)) as [reg|] eqn:Hr;
    [|by vm_compute in Hr].
  destruct (step (seconds 7200) reg
              (Finish "job-1"
                 (Returned [DomainData5 "nike" "nike.com" "1995-03-16" 11141 "Success"])))
    as [reg'|] eqn:Hs.
  2:{ vm_compute in Hr. injection Hr as <-. by vm_compute in Hs. }
  destruct (research_tasks reg !! "job-1") as [j|] eqn:Hj.
  2:{ vm_compute in Hr. injection Hr as <-. by vm_compute in Hj. }
  destruct (results_committed_once _ _ _ _ _ _ _ Hr Hs Hj) as (_ & _ & _ & _ & Hfin).
  destruct (Hfin _ eq_refl) as (j' & Hj' & Hres & Hst & Hend).
  assert (Hev : cancelled_event j = false).
  { vm_compute in Hr. injection Hr as <-. vm_compute in Hj. by injection Hj as <-. }
  rewrite Hev in Hend. destruct Hend as (Hs' & Hr' & _).
  destruct Hst as [[Hrun _]|[_ Hset]]; [|congruence].
  exists reg, reg', j, j'. by repeat split.
Defined.

(** A job without keywords completes with no results. *)
Example empty_job_completes :
  (λ reg, (status <$> research_tasks reg !! "job-0",
           get_results reg "job-0"))
    <$> run empty [(seconds 0, StartResearch "job-0" 0 5);
                   (seconds 0, Begin "job-0");
                   (seconds 0, Finish "job-0" (Returned []))]
  = Some (Some "completed", Some (Some [])).
Proof. by vm_compute. Qed.

(** The job of the specification that is cancelled before its first
    keyword is through: [cancelled], with no results. *)
Example cancelled_job_is_empty :
  (λ reg, (status <$> research_tasks reg !! "job-2",
           results <$> research_tasks reg !! "job-2",
           get_results reg "job-2"))
    <$> run empty (cancelled_job ++ [(seconds 3, Finish "job-2" (Returned []))])
  = Some (Some "cancelled", Some [], Some None).
Proof. by vm_compute. Qed.

End AppFacts.

Module FilterFacts.
Import Filter.

Example filter_sample :
  map domain (apply_advanced_filter sample 0 365 2) = ["sneakers.io"; "kicks.dev"].
Proof. reflexivity. Qed.

Example filter_sample_one :
  map domain (apply_advanced_filter sample 0 365 1)
  = ["sneakers.io"; "kicks.dev"; "puma.com"].
Proof. reflexivity. Qed.

Lemma group_by_keyword_snoc l r :
  group_by_keyword (l ++ [r]) = group_append (keyword r) r (group_by_keyword l).
Proof. unfold group_by_keyword. by rewrite fold_left_app. Qed.

Lemma group_of_append k r g k' :
  group_of k' (group_append k r g)
  = if String.eqb k' k then Some (default [] (group_of k g) ++ [r])
    else group_of k' g.
Proof.
  induction g as [|[k0 rs] g IH]; simpl.
  - by destruct (String.eqb k' k).
  - destruct (String.eqb k k0) eqn:E; simpl.
    + apply String.eqb_eq in E. subst k0.
      by destruct (String.eqb k' k).
    + destruct (String.eqb k' k0) eqn:E'; [|apply IH].
      apply String.eqb_eq in E'. subst k0.
      by rewrite String.eqb_sym, E.
Qed.

Lemma of_keyword_snoc k l r :
  of_keyword k (l ++ [r])
  = of_keyword k l ++ (if String.eqb (keyword r) k then [r] else []).
Proof. unfold of_keyword. rewrite List.filter_app. reflexivity. Qed.

(** The group of a keyword holds its results in order; a keyword without
    results has no group. *)
Lemma group_of_group_by k l :
  group_of k (group_by_keyword l)
  = match of_keyword k l with [] => None | rs => Some rs end.
Proof.
  induction l as [|r l IH] using rev_ind; [done|].
  rewrite group_by_keyword_snoc, group_of_append, of_keyword_snoc.
  destruct (String.eqb_spec k (keyword r)) as [->|Hne].
  - rewrite String.eqb_refl, IH.
    destruct (of_keyword (keyword r) l) as [|x xs]; simpl; [done|].
    by destruct (xs ++ [r]) eqn:E; [destruct xs; discriminate|].
  - destruct (String.eqb_spec (keyword r) k) as [?|_]; [congruence|].
    by rewrite app_nil_r.
Qed.

Lemma group_append_keys k r g :
  (group_append k r g).*1
  = if bool_decide (k ∈ g.*1) then g.*1 else g.*1 ++ [k].
Proof.
  induction g as [|[k0 rs] g IH]; [done|].
  cbn [group_append]. destruct (String.eqb k k0) eqn:E.
  - apply String.eqb_eq in E. subst k0. rewrite !fmap_cons. cbn [fst].
    rewrite bool_decide_eq_true_2; [done|by left].
  - apply String.eqb_neq in E. rewrite !fmap_cons, IH. cbn [fst].
    destruct (bool_decide (k ∈ g.*1)) eqn:E2.
    + apply bool_decide_eq_true_1 in E2.
      rewrite bool_decide_eq_true_2; [done|by right].
    + apply bool_decide_eq_false_1 in E2.
      rewrite bool_decide_eq_false_2; [done|].
      intros [?|?]%elem_of_cons; done.
Qed.

Lemma group_by_keys_NoDup l : NoDup (group_by_keyword l).*1.
Proof.
  induction l as [|r l IH] using rev_ind; [constructor|].
  rewrite group_by_keyword_snoc, group_append_keys.
  destruct (bool_decide _) eqn:E; [done|].
  apply bool_decide_eq_false_1 in E. apply NoDup_app. split; [done|].
  split; [|apply NoDup_singleton].
  intros x Hx ->%list_elem_of_singleton. done.
Qed.

Lemma group_of_elem (g : groups) k rs :
  NoDup g.*1 → (k, rs) ∈ g ↔ group_of k g = Some rs.
Proof.
  induction g as [|[k0 rs0] g IH]; simpl; intros Hnd.
  - split; [by intros ?%elem_of_nil|done].
  - apply NoDup_cons in Hnd as [Hk0 Hnd]. rewrite elem_of_cons, (IH Hnd).
    destruct (String.eqb_spec k k0) as [->|Hne].
    + split.
      * intros [[= ->]|Hg]; [done|]. exfalso. apply Hk0.
        apply (IH Hnd) in Hg. apply list_elem_of_fmap. by exists (k0, rs).
      * intros [= ->]. by left.
    + split; [intros [[= ? ?]|?]; done|by right].
Qed.

Lemma groups_spec l k rs :
  (k, rs) ∈ group_by_keyword l ↔ rs = of_keyword k l ∧ rs ≠ [].
Proof.
  rewrite (group_of_elem _ _ _ (group_by_keys_NoDup l)), group_of_group_by.
  destruct (of_keyword k l) as [|x xs]; split; try done.
  - by intros [-> ?].
  - by intros [= <-].
  - by intros [-> _].
Qed.

Lemma kept_elem min_age max_age min_domains rs r :
  In r (kept min_age max_age min_domains rs)
  ↔ In r rs ∧ in_range min_age max_age r = true
    ∧ min_domains ≤ Z.of_nat (length (List.filter (in_range min_age max_age) rs)).
Proof.
  unfold kept. destruct (Z.leb_spec min_domains
    (Z.of_nat (length (List.filter (in_range min_age max_age) rs)))) as [H|H].
  - rewrite filter_In. tauto.
  - simpl. split; [done|]. intros (_ & _ & ?). lia.
Qed.

(** A record is in the output exactly when it is in the input, passes the
    age test, and its keyword has at least [min_domains] records that pass
    it. *)
Theorem filter_membership results min_age max_age min_domains r :
  r ∈ apply_advanced_filter results min_age max_age min_domains
  ↔ r ∈ results ∧ in_range min_age max_age r = true
    ∧ min_domains
      ≤ Z.of_nat (length (valid_of_keyword min_age max_age (keyword r) results)).
Proof.
  unfold apply_advanced_filter, valid_of_keyword.
  rewrite !list_elem_of_In, in_flat_map. split.
  - intros ([k rs] & Hg & Hr). apply list_elem_of_In, groups_spec in Hg as [-> _].
    simpl in Hr. apply kept_elem in Hr as (Hin & Hv & Hn).
    unfold of_keyword in Hin. apply filter_In in Hin as [Hin Hk].
    apply String.eqb_eq in Hk. subst k. done.
  - intros (Hin & Hv & Hn). exists (keyword r, of_keyword (keyword r) results).
    assert (Hr : In r (of_keyword (keyword r) results)).
    { unfold of_keyword. apply filter_In. split; [done|apply String.eqb_refl]. }
    split.
    + apply list_elem_of_In, groups_spec. split; [done|].
      intros E. by rewrite E in Hr.
    + simpl. by apply kept_elem.
Qed.

Lemma group_append_perm k r (g : groups) :
  concat (group_append k r g).*2 ≡ₚ concat g.*2 ++ [r].
Proof.
  induction g as [|[k0 rs] g IH]; [done|].
  cbn [group_append]. destruct (String.eqb k k0); rewrite !fmap_cons; cbn [snd concat].
  - rewrite <- !app_assoc. f_equiv. apply Permutation_app_comm.
  - rewrite IH. by rewrite app_assoc.
Qed.

Lemma group_by_perm l : concat (group_by_keyword l).*2 ≡ₚ l.
Proof.
  induction l as [|r l IH] using rev_ind; [done|].
  by rewrite group_by_keyword_snoc, group_append_perm, IH.
Qed.

Lemma filter_sublist {A} (f : A → bool) l : List.filter f l `sublist_of` l.
Proof.
  induction l as [|x l IH]; simpl; [constructor|].
  destruct (f x); by constructor.
Qed.

Lemma kept_submseteq min_age max_age min_domains rs :
  kept min_age max_age min_domains rs ⊆+ rs.
Proof.
  unfold kept. case_match.
  - apply sublist_submseteq, filter_sublist.
  - apply submseteq_nil_l.
Qed.

(** The output holds no record that the input does not hold, and none more
    often than the input: it is a selection of the input records, up to
    their order. *)
Theorem filter_selects results min_age max_age min_domains :
  apply_advanced_filter results min_age max_age min_domains ⊆+ results.
Proof.
  unfold apply_advanced_filter. rewrite <- (group_by_perm results) at 2.
  induction (group_by_keyword results) as [|[k rs] g IH]; simpl; [done|].
  apply submseteq_app; [apply kept_submseteq|apply IH].
Qed.

Lemma kept_nil min_age max_age min_domains : kept min_age max_age min_domains [] = [].
Proof. unfold kept. simpl. by case_match. Qed.

Lemma filter_filter {A} (f : A → bool) l : List.filter f (List.filter f l) = List.filter f l.
Proof.
  induction l as [|x l IH]; simpl; [done|].
  destruct (f x) eqn:E; simpl; [|done]. by rewrite E, IH.
Qed.

Lemma kept_kept min_age max_age min_domains rs :
  kept min_age max_age min_domains (kept min_age max_age min_domains rs)
  = kept min_age max_age min_domains rs.
Proof.
  unfold kept. cbv zeta.
  destruct (min_domains <=? Z.of_nat (length (List.filter (in_range min_age max_age) rs)))
    eqn:E.
  - by rewrite filter_filter, E.
  - simpl. by case_match.
Qed.

Lemma of_keyword_all k rs : Forall (fun r => keyword r = k) (of_keyword k rs).
Proof.
  apply Forall_forall. intros r Hr. apply list_elem_of_In in Hr.
  unfold of_keyword in Hr. apply filter_In in Hr as [_ Hr]. by apply String.eqb_eq.
Qed.

Lemma of_keyword_same k rs :
  Forall (fun r => keyword r = k) rs → of_keyword k rs = rs.
Proof.
  induction 1 as [|r rs Hr _ IH]; [done|]. unfold of_keyword in *. simpl.
  rewrite Hr, String.eqb_refl. by f_equal.
Qed.

Lemma of_keyword_other k k' rs :
  k ≠ k' → Forall (fun r => keyword r = k') rs → of_keyword k rs = [].
Proof.
  intros Hne. induction 1 as [|r rs Hr _ IH]; [done|]. unfold of_keyword in *. simpl.
  rewrite Hr. by destruct (String.eqb_spec k' k) as [?|_]; [congruence|].
Qed.

Lemma kept_all min_age max_age min_domains k rs :
  Forall (fun r => keyword r = k) rs →
  Forall (fun r => keyword r = k) (kept min_age max_age min_domains rs).
Proof.
  intros H. pose proof (kept_submseteq min_age max_age min_domains rs) as Hs.
  apply Forall_forall. intros r Hr. rewrite Forall_forall in H. apply H.
  by eapply elem_of_submseteq.
Qed.

Lemma of_keyword_blocks (h : list DomainData → list DomainData) k (g : groups) :
  NoDup g.*1 →
  (∀ k' rs, (k', rs) ∈ g → Forall (fun r => keyword r = k') (h rs)) →
  of_keyword k (flat_map (fun p => h (snd p)) g)
  = match group_of k g with Some rs => h rs | None => [] end.
Proof.
  induction g as [|[k0 rs] g IH]; intros Hnd Hall; [done|].
  rewrite fmap_cons in Hnd. apply NoDup_cons in Hnd as [Hk0 Hnd].
  cbn [flat_map snd group_of]. unfold of_keyword in *. rewrite List.filter_app.
  rewrite IH; [|done|intros k' rs' H; apply Hall; by right].
  assert (Hrs : Forall (fun r => keyword r = k0) (h rs)) by (apply Hall; by left).
  destruct (String.eqb_spec k k0) as [->|Hne].
  - rewrite (of_keyword_same k0 _ Hrs : List.filter _ _ = _).
    destruct (group_of k0 g) as [rs'|] eqn:E; [|by rewrite app_nil_r].
    exfalso. apply Hk0. apply (group_of_elem _ _ _ Hnd) in E.
    apply list_elem_of_fmap. by exists (k0, rs').
  - by rewrite (of_keyword_other k k0 _ Hne Hrs : List.filter _ _ = _).
Qed.

(** Keyword by keyword, the output holds either all the records of the
    keyword that pass the age test, in their input order, or none of them:
    none when fewer than [min_domains] pass. *)
Theorem filter_per_keyword results min_age max_age min_domains k :
  of_keyword k (apply_advanced_filter results min_age max_age min_domains)
  = kept min_age max_age min_domains (of_keyword k results).
Proof.
  unfold apply_advanced_filter.
  rewrite (of_keyword_blocks (kept min_age max_age min_domains)).
  - rewrite group_of_group_by.
    destruct (of_keyword k results); [by rewrite kept_nil|done].
  - apply group_by_keys_NoDup.
  - intros k' rs [-> _]%groups_spec. apply kept_all, of_keyword_all.
Qed.

Lemma group_append_fresh k r (g : groups) :
  k ∉ g.*1 → group_append k r g = g ++ [(k, [r])].
Proof.
  induction g as [|[k0 rs] g IH]; intros Hk; [done|].
  rewrite fmap_cons in Hk. apply not_elem_of_cons in Hk as [Hne Hk].
  cbn [group_append]. destruct (String.eqb_spec k k0) as [?|_]; [done|].
  by rewrite IH.
Qed.

Lemma group_append_last k r (g : groups) rs :
  k ∉ g.*1 → group_append k r (g ++ [(k, rs)]) = g ++ [(k, rs ++ [r])].
Proof.
  induction g as [|[k0 rs0] g IH]; intros Hk.
  - simpl. by rewrite String.eqb_refl.
  - rewrite fmap_cons in Hk. apply not_elem_of_cons in Hk as [Hne Hk].
    cbn [group_append app]. destruct (String.eqb_spec k k0) as [?|_]; [done|].
    by rewrite IH.
Qed.

Lemma fold_block k b : ∀ rs (g : groups),
  k ∉ g.*1 → Forall (fun r => keyword r = k) b →
  fold_left (fun g r => group_append (keyword r) r g) b (g ++ [(k, rs)])
  = g ++ [(k, rs ++ b)].
Proof.
  induction b as [|r b IH]; intros rs g Hk Hb.
  - by rewrite app_nil_r.
  - apply Forall_cons in Hb as [Hr Hb]. simpl. rewrite Hr.
    rewrite group_append_last by done. rewrite IH by done.
    by rewrite <- app_assoc.
Qed.

Lemma group_by_block k l b :
  k ∉ (group_by_keyword l).*1 → Forall (fun r => keyword r = k) b →
  group_by_keyword (l ++ b)
  = group_by_keyword l ++ match b with [] => [] | _ => [(k, b)] end.
Proof.
  intros Hk Hb. unfold group_by_keyword at 1. rewrite fold_left_app.
  fold (group_by_keyword l). destruct b as [|r b]; [by rewrite app_nil_r|].
  pose proof Hb as [Hr Hb']%Forall_cons. simpl. rewrite Hr.
  rewrite group_append_fresh by done. by rewrite fold_block.
Qed.

Lemma regroup (h : list DomainData → list DomainData) (g : groups) :
  NoDup g.*1 →
  (∀ k rs, (k, rs) ∈ g → Forall (fun r => keyword r = k) (h rs)) →
  group_by_keyword (flat_map (fun p => h (snd p)) g)
  = flat_map (fun p => match h (snd p) with [] => [] | b => [(fst p, b)] end) g.
Proof.
  induction g as [|[k rs] g IH] using rev_ind; intros Hnd Hall; [done|].
  rewrite fmap_app in Hnd. apply NoDup_app in Hnd as (Hnd & Hk & _).
  assert (Hkg : k ∉ g.*1).
  { intros Hin. apply (Hk k Hin). simpl. by left. }
  rewrite !flat_map_app. simpl. rewrite !app_nil_r.
  assert (IH' := IH Hnd (fun k' rs' H => Hall k' rs' ltac:(apply elem_of_app; by left))).
  rewrite (group_by_block k).
  - rewrite IH'. by destruct (h rs).
  - rewrite IH'. intros Hin. apply Hkg.
    apply list_elem_of_fmap in Hin as ([k' b] & -> & Hin).
    apply list_elem_of_In, in_flat_map in Hin as ([k1 rs1] & Hg & Hin).
    simpl in Hin. destruct (h rs1); [done|]. destruct Hin as [[= <- _]|[]].
    apply list_elem_of_fmap. exists (k1, rs1). by rewrite list_elem_of_In.
  - apply Hall. apply elem_of_app. right. by left.
Qed.

(** Filtering a second time with the same bounds changes nothing. *)
Theorem filter_idempotent results min_age max_age min_domains :
  apply_advanced_filter
    (apply_advanced_filter results min_age max_age min_domains)
    min_age max_age min_domains
  = apply_advanced_filter results min_age max_age min_domains.
Proof.
  unfold apply_advanced_filter at 1. unfold apply_advanced_filter at 1.
  rewrite (regroup (kept min_age max_age min_domains)).
  - unfold apply_advanced_filter.
    induction (group_by_keyword results) as [|[k rs] g IH]; [done|].
    cbn [flat_map fst snd]. rewrite flat_map_app, IH. f_equal.
    destruct (kept min_age max_age min_domains rs) as [|x xs] eqn:E; [done|].
    simpl. rewrite app_nil_r, <- E. apply kept_kept.
  - apply group_by_keys_NoDup.
  - intros k rs [-> _]%groups_spec. apply kept_all, of_keyword_all.
Qed.

End FilterFacts.

Module HttpMore.
Import Http Trace.

Lemma verdict_return r v :
  whois_verdict r = Return v → v ≠ JNull → r = Response 200 (Ok v).
Proof.
  destruct r as [status read|e]; simpl.
  - destruct (Z.eqb_spec status 200) as [->|_].
    + destruct read as [v'|e]; [by intros [= ->]|].
      unfold whois_caught. destruct (cls e); intros [= <-]; done.
    + destruct (status =? 429); [done|]. destruct (status =? 403); [by intros [= <-]|].
      destruct read as [v'|e]; [by intros [= <-]|].
      unfold whois_caught. destruct (cls e); intros [= <-]; done.
  - unfold whois_caught. destruct (cls e); intros [= <-]; done.
Qed.

Lemma verdict_propagate r e :
  whois_verdict r = Propagate e → cls e = CancelledError.
Proof.
  destruct r as [status read|e']; simpl.
  - destruct (status =? 200).
    + destruct read as [v'|e']; [done|].
      unfold whois_caught. destruct (cls e') eqn:E; intros [= <-]; done.
    + destruct (status =? 429); [done|]. destruct (status =? 403); [done|].
      destruct read as [v'|e']; [done|].
      unfold whois_caught. destruct (cls e') eqn:E; intros [= <-]; done.
  - unfold whois_caught. destruct (cls e') eqn:E; intros [= <-]; done.
Qed.

(** With its key, the WHOIS call sends between one and four requests and
    sleeps 14 seconds at most, whatever the replies. *)
Theorem get_whois_data_bounded self replies domain :
  whois_api_key self ≠ "" →
  (1 ≤ requests (get_whois_data self replies domain).2 ≤ 4)%nat
  ∧ 0 ≤ total_sleep (get_whois_data self replies domain).2 ≤ 14.
Proof.
  intros Hkey. unfold get_whois_data.
  destruct (whois_api_key self); [done|].
  cbn -[Z.mul Z.pow Z.add]. unfold base_delay.
  destruct (whois_verdict (replies 0%nat)); cbn; try lia.
  destruct (whois_verdict (replies 1%nat)); cbn; try lia.
  destruct (whois_verdict (replies 2%nat)); cbn; try lia.
  destruct (whois_verdict (replies 3%nat)); cbn; lia.
Qed.

Lemma get_whois_data_bounded_witness :
  (1 ≤ requests (get_whois_data with_keys (limited_then 9 (Response 200 (Ok JNull)))
                   "example.com").2 ≤ 4)%nat
  ∧ 0 ≤ total_sleep (get_whois_data with_keys
                       (limited_then 9 (Response 200 (Ok JNull))) "example.com").2 ≤ 14.
Proof. apply get_whois_data_bounded. discriminate. Defined.

(** A WHOIS result other than [None] is the body of a 200 reply, reached
    after nothing but retried attempts; and the one exception the call lets
    out, key present, is a cancellation. *)
Theorem get_whois_data_result self replies domain :
  whois_api_key self ≠ "" →
  (∀ v, (get_whois_data self replies domain).1 = Ok v → v ≠ JNull →
        ∃ n, (n ≤ max_retries)%nat ∧ replies n = Response 200 (Ok v)
             ∧ ∀ i, (i < n)%nat → whois_verdict (replies i) = Retry)
  ∧ (∀ e, (get_whois_data self replies domain).1 = Raise e →
          cls e = CancelledError).
Proof.
  intros Hkey. unfold get_whois_data.
  destruct (whois_api_key self); [done|]. simpl.
  destruct (whois_verdict (replies 0%nat)) as [v0| |e0] eqn:E0; simpl.
  { split; [|done]. intros v [= ->] Hv. exists 0%nat. unfold max_retries.
    split; [lia|]. split; [by apply verdict_return|]. intros; lia. }
  2:{ split; [done|]. intros e [= <-]. by eapply verdict_propagate. }
  destruct (whois_verdict (replies 1%nat)) as [v1| |e1] eqn:E1; simpl.
  { split; [|done]. intros v [= ->] Hv. exists 1%nat. unfold max_retries.
    split; [lia|]. split; [by apply verdict_return|].
    intros [|i] Hi; [done|lia]. }
  2:{ split; [done|]. intros e [= <-]. by eapply verdict_propagate. }
  destruct (whois_verdict (replies 2%nat)) as [v2| |e2] eqn:E2; simpl.
  { split; [|done]. intros v [= ->] Hv. exists 2%nat. unfold max_retries.
    split; [lia|]. split; [by apply verdict_return|].
    intros [|[|i]] Hi; [done|done|lia]. }
  2:{ split; [done|]. intros e [= <-]. by eapply verdict_propagate. }
  destruct (whois_verdict (replies 3%nat)) as [v3| |e3] eqn:E3; simpl.
  { split; [|done]. intros v [= ->] Hv. exists 3%nat. unfold max_retries.
    split; [lia|]. split; [by apply verdict_return|].
    intros [|[|[|i]]] Hi; [done|done|done|lia]. }
  2:{ split; [done|]. intros e [= <-]. by eapply verdict_propagate. }
  split; [|done]. by intros v [= <-] Hv.
Qed.

Lemma get_whois_data_result_witness :
  ∃ n, (n ≤ max_retries)%nat
       ∧ limited_then 2 (Response 200 (Ok (JObj [("result", JObj [])]))) n
         = Response 200 (Ok (JObj [("result", JObj [])]))
       ∧ ∀ i, (i < n)%nat →
              whois_verdict
                (limited_then 2 (Response 200 (Ok (JObj [("result", JObj [])]))) i)
              = Retry.
Proof.
  apply (proj1 (get_whois_data_result with_keys
                  (limited_then 2 (Response 200 (Ok (JObj [("result", JObj [])]))))
                  "example.com" ltac:(discriminate))
           (JObj [("result", JObj [])])); [reflexivity|discriminate].
Defined.

(** With its key, the search call sends one request, or two with a
    2-second sleep between them; the second is sent only after a 429. A
    result other than [None] is the body of a 200 reply, and the one
    exception let out is a cancellation: a timeout, a 403 or any other
    failure gives [None] without another request. *)
Theorem search_google_behaviour self replies kw :
  serp_api_key self ≠ "" →
  let get := Get (serp_host self) kw in
  ((search_google self replies kw).2 = [get]
   ∨ (search_google self replies kw).2 = [get; Sleep 2; get]
     ∧ ∃ read, replies 0%nat = Response 429 read)
  ∧ (∀ v, (search_google self replies kw).1 = Ok v → v ≠ JNull →
          replies 0%nat = Response 200 (Ok v)
          ∨ (∃ read, replies 0%nat = Response 429 read)
            ∧ replies 1%nat = Response 200 (Ok v))
  ∧ (∀ e, (search_google self replies kw).1 = Raise e → cls e = CancelledError).
Proof.
  intros Hkey get. unfold search_google.
  destruct (serp_api_key self); [done|]. simpl. fold get.
  assert (Hcaught : ∀ e, (∀ v, search_caught e = Ok v → v = JNull)
                        ∧ ∀ e', search_caught e = Raise e' → cls e' = CancelledError).
  { intros e. unfold search_caught, is_Exception.
    destruct (cls e) eqn:E; split; intros x [= <-]; done. }
  assert (Hread : ∀ rd, (∀ v, search_read rd = Ok v → v ≠ JNull → rd = Ok v)
                       ∧ ∀ e', search_read rd = Raise e' → cls e' = CancelledError).
  { intros [v'|e]; simpl; [split; [by intros v [= ->]|done]|].
    destruct (Hcaught e) as [H1 H2]. split; [|done].
    intros v Hv Hn. by apply H1 in Hv. }
  destruct (replies 0%nat) as [status read|e] eqn:E0; simpl.
  2:{ destruct (Hcaught e) as [H1 H2]. split; [by left|]. split; [|done].
      intros v Hv Hn. by apply H1 in Hv. }
  destruct (Z.eqb_spec status 200) as [->|H200]; simpl.
  { destruct (Hread read) as [H1 H2]. split; [by left|]. split; [|done].
    intros v Hv Hn. left. by rewrite (H1 v Hv Hn). }
  destruct (Z.eqb_spec status 429) as [->|H429]; simpl.
  2:{ split; [by left|]. split; [|done]. by intros v [= <-]. }
  destruct (replies 1%nat) as [st rd|e] eqn:E1; simpl.
  2:{ destruct (Hcaught e) as [H1 H2]. split; [right; eauto|]. split; [|done].
      intros v Hv Hn. by apply H1 in Hv. }
  destruct (Z.eqb_spec st 200) as [->|Hst]; simpl.
  - destruct (Hread rd) as [H1 H2]. split; [right; eauto|]. split; [|done].
    intros v Hv Hn. right. split; [eauto|]. by rewrite (H1 v Hv Hn).
  - split; [right; eauto|]. split; [|done]. by intros v [= <-].
Qed.

Lemma search_google_behaviour_witness :
  (search_google with_keys (limited_then 1 (Response 403 (Ok JNull))) "nike").2
  = [Get "google-search116.p.rapidapi.com" "nike"; Sleep 2;
     Get "google-search116.p.rapidapi.com" "nike"]
  ∧ ∃ read, limited_then 1 (Response 403 (Ok JNull)) 0%nat = Response 429 read.
Proof.
  destruct (proj1 (search_google_behaviour with_keys
                     (limited_then 1 (Response 403 (Ok JNull))) "nike"
                     ltac:(discriminate))) as [H|H].
  - discriminate H.
  - exact H.
Defined.

(** The constructor takes each key from its argument when one is given,
    else from the environment variable when that is set, else from the
    built-in default; so a key is never empty when the default is not. *)
Theorem init_key_precedence default_serp default_whois getenv serp whois :
  let self := init default_serp default_whois getenv serp whois in
  (serp ≠ "" → serp_api_key self = serp)
  ∧ (serp = "" → getenv "SERP_API_KEY" ≠ "" →
     serp_api_key self = getenv "SERP_API_KEY")
  ∧ (serp = "" → getenv "SERP_API_KEY" = "" → serp_api_key self = default_serp)
  ∧ (whois ≠ "" → whois_api_key self = whois)
  ∧ (whois = "" → getenv "WHOIS_API_KEY" ≠ "" →
     whois_api_key self = getenv "WHOIS_API_KEY")
  ∧ (whois = "" → getenv "WHOIS_API_KEY" = "" → whois_api_key self = default_whois).
Proof.
  unfold init, str_or. simpl.
  repeat split.
  - by destruct serp.
  - intros -> H. simpl. by destruct (getenv "SERP_API_KEY").
  - by intros -> ->.
  - by destruct whois.
  - intros -> H. simpl. by destruct (getenv "WHOIS_API_KEY").
  - by intros -> ->.
Qed.

Lemma init_key_precedence_witness :
  serp_api_key (init "default-serp" "default-whois"
                  (fun name => if String.eqb name "WHOIS_API_KEY" then "env-whois" else "")
                  "" "")
  = "default-serp"
  ∧ whois_api_key (init "default-serp" "default-whois"
                     (fun name => if String.eqb name "WHOIS_API_KEY" then "env-whois" else "")
                     "" "")
    = "env-whois".
Proof.
  pose proof (init_key_precedence "default-serp" "default-whois"
                (fun name => if String.eqb name "WHOIS_API_KEY" then "env-whois" else "")
                "" "") as (_ & _ & H3 & _ & H5 & _).
  split; [apply H3; reflexivity | apply H5; [reflexivity|discriminate]].
Defined.

End HttpMore.

Module AgeMore.
Import Age.

Lemma append_nonempty s t : t ≠ "" → s +:+ t ≠ "".
Proof. destruct s; simpl; [done|]. discriminate. Qed.

Lemma strftime_nonempty dt : strftime_ymd_hms dt ≠ "".
Proof.
  unfold strftime_ymd_hms. apply append_nonempty. discriminate.
Qed.

Section WithParsers.

Variable date_parser_parse : string → option datetime.
Variable strptime : string → string → option datetime.

Lemma body_shape now whois_data r :
  calculate_domain_age_body date_parser_parse strptime now whois_data = Ok r →
  r = (None, None) ∨ ∃ d a, r = (Some d, Some a) ∧ d ≠ "".
Proof.
  unfold calculate_domain_age_body.
  destruct (Dyn.getitem whois_data "result") as [result|e]; [|done]. simpl.
  destruct (Dyn.get result "creation_date") as [raw|e]; [|done]. simpl.
  destruct (negb (Dyn.truthy raw)); [intros [= <-]; by left|].
  destruct (negb (Dyn.truthy (first_candidate raw))); [intros [= <-]; by left|].
  destruct (parse_creation_date _ _ _) as [c|]; [|intros [= <-]; by left].
  intros [= <-]. right. eexists _, _. split; [done|]. apply strftime_nonempty.
Qed.

Lemma age_shape now whois_data :
  match calculate_domain_age date_parser_parse strptime now whois_data with
  | Ok r => r = (None, None) ∨ ∃ d a, r = (Some d, Some a) ∧ d ≠ ""
  | Raise e =>
      cls e = TypeError
      ∧ ((∃ n, whois_data = JNum n ∧ n ≠ 0) ∨ whois_data = JBool true)
  end.
Proof.
  unfold calculate_domain_age.
  destruct (Dyn.truthy whois_data) eqn:Ht; cbn [negb]; [|by left].
  destruct (Dyn.contains "result" whois_data) as [[]|e] eqn:Ec; cbn [Py.bind negb].
  - pose proof (body_shape now whois_data) as Hb.
    pose proof (ResearchFacts.ordinary_calculate_body date_parser_parse strptime
                  now whois_data) as Ho.
    destruct (calculate_domain_age_body _ _ now whois_data) as [r|e];
      simpl in *; [by apply Hb|]. rewrite Ho. by left.
  - by left.
  - destruct whois_data as [|b|n|s|l|kv]; try discriminate Ec.
    + discriminate Ht.
    + injection Ec as <-. split; [done|]. right. simpl in Ht. by rewrite Ht.
    + injection Ec as <-. split; [done|]. left. exists n. split; [done|].
      simpl in Ht. intros ->. done.
Qed.

(** The age calculation returns a date and a number of days together or
    neither; it never fails on an object, a string, a list or a false value,
    and raises [TypeError] on the values left: a number other than 0 and
    [true]. *)
Theorem calculate_domain_age_shape now whois_data :
  match calculate_domain_age date_parser_parse strptime now whois_data with
  | Ok r => r = (None, None) ∨ ∃ d a, r = (Some d, Some a) ∧ d ≠ ""
  | Raise e =>
      cls e = TypeError
      ∧ ((∃ n, whois_data = JNum n ∧ n ≠ 0) ∨ whois_data = JBool true)
  end.
Proof.
  unfold calculate_domain_age.
  destruct (Dyn.truthy whois_data) eqn:Ht; cbn [negb]; [|by left].
  destruct (Dyn.contains "result" whois_data) as [[]|e] eqn:Ec; cbn [Py.bind negb].
  - pose proof (body_shape now whois_data) as Hb.
    pose proof (ResearchFacts.ordinary_calculate_body date_parser_parse strptime
                  now whois_data) as Ho.
    destruct (calculate_domain_age_body _ _ now whois_data) as [r|e];
      simpl in *; [by apply Hb|]. rewrite Ho. by left.
  - by left.
  - destruct whois_data as [|b|n|s|l|kv]; try discriminate Ec.
    + discriminate Ht.
    + injection Ec as <-. split; [done|]. right. simpl in Ht. by rewrite Ht.
    + injection Ec as <-. split; [done|]. left. exists n. split; [done|].
      simpl in Ht. intros ->. done.
Qed.

(** The time zone of a parsed creation date is dropped, not converted: the
    result is the one for the same clock reading without a zone. *)
Theorem calculate_domain_age_ignores_zone now whois_data :
  calculate_domain_age
    (fun s => replace_tzinfo_None <$> date_parser_parse s)
    (fun s fmt => replace_tzinfo_None <$> strptime s fmt)
    now whois_data
  = calculate_domain_age date_parser_parse strptime now whois_data.
Proof.
  unfold calculate_domain_age, calculate_domain_age_body.
  destruct (negb (Dyn.truthy whois_data)); [done|].
  destruct (Dyn.contains "result" whois_data) as [[]|]; simpl; [|done|done].
  destruct (Dyn.getitem whois_data "result") as [result|]; simpl; [|done].
  destruct (Dyn.get result "creation_date") as [raw|]; simpl; [|done].
  destruct (negb (Dyn.truthy raw)); [done|].
  destruct (negb (Dyn.truthy (first_candidate raw))); [done|].
  assert (Hp : parse_creation_date
                 (fun s => replace_tzinfo_None <$> date_parser_parse s)
                 (fun s fmt => replace_tzinfo_None <$> strptime s fmt)
                 (first_candidate raw)
               = replace_tzinfo_None
                   <$> parse_creation_date date_parser_parse strptime
                         (first_candidate raw)).
  { unfold parse_creation_date. destruct (first_candidate raw); try done.
    destruct (date_parser_parse s); [done|]. simpl.
    by destruct (strptime s "%Y-%m-%d %H:%M:%S"). }
  rewrite Hp.
  destruct (parse_creation_date date_parser_parse strptime (first_candidate raw))
    as [[y m d h mi s us [tz|]]|]; reflexivity.
Qed.

(** Every record of [process_domain] keeps the keyword and the domain it
    was asked about. One that is not a [Success] holds the sentinels
    ["N/A"], [-1] and an empty age string; a [Success] holds a date and the
    age string of its days. The one exception let out is a cancellation of
    the WHOIS call. *)
Theorem process_domain_record whois now d k :
  match process_domain date_parser_parse strptime whois now d k with
  | Ok r =>
      keyword r = k ∧ domain r = d ∧ google_string r = ""
      ∧ (status r = "Success" ∧ creation_date r ≠ ""
         ∧ age_display r = age_display_of (age_days r)
         ∨ status r ≠ "Success" ∧ creation_date r = "N/A"
           ∧ age_days r = -1 ∧ age_display r = "")
  | Raise e => whois = Raise e ∧ cls e = CancelledError
  end.
Proof.
  unfold process_domain.
  destruct whois as [w|e]; simpl.
  2:{ unfold is_Exception. destruct (cls e) eqn:E; simpl; repeat split; auto;
        right; repeat split; try done; cbv [String.append]; discriminate. }
  destruct (Dyn.truthy w); simpl.
  2:{ repeat split; auto; right; by repeat split. }
  pose proof (age_shape now w) as Hs.
  destruct (calculate_domain_age _ _ now w) as [r|e]; simpl.
  - destruct Hs as [->|(c & a & -> & Hc)]; simpl.
    + repeat split; auto; right; by repeat split.
    + destruct c as [|ch c]; [done|]. simpl. repeat split; auto; left; by repeat split.
  - destruct Hs as [Hc _]. unfold is_Exception. rewrite Hc. simpl.
    repeat split; auto; right; repeat split; try done;
      cbv [String.append]; discriminate.
Qed.

(** A creation date later than [now] by a day at most gives a [Success]
    record whose [age_days] is the failure sentinel [-1], shown as
    ["-1 days"]. *)
Theorem future_date_looks_failed now s c d k :
  s ≠ "" →
  date_parser_parse s = Some c →
  tzinfo c = None →
  -86400000000 <= Datetime.sub now c < 0 →
  process_domain date_parser_parse strptime
    (Ok (JObj [("result", JObj [("creation_date", JStr s)])])) now d k
  = Ok (mk_DomainData k d (strftime_ymd_hms c) (-1) "Success" "" "-1 days").
Proof.
  intros Hs Hp Htz Hsub.
  assert (Hage : timedelta_days (Datetime.sub now c) = -1).
  { unfold timedelta_days. Z.div_mod_to_equations. lia. }
  rewrite (AgeFacts.process_domain_known date_parser_parse strptime _ now d k
             (strftime_ymd_hms c) (-1)); [done|done| |].
  - unfold calculate_domain_age, calculate_domain_age_body. simpl.
    destruct s as [|ch s']; [done|]. simpl. rewrite Hp, Htz. simpl.
    by rewrite Hage.
  - pose proof (strftime_nonempty c). by destruct (strftime_ymd_hms c).
Qed.

End WithParsers.

Lemma future_date_looks_failed_witness :
  process_domain (fun s => strptime_padded s "%Y-%m-%d %H:%M:%S") strptime_padded
    (Ok (JObj [("result", JObj [("creation_date", JStr "2025-09-16 00:00:00")])]))
    (mk_datetime 2025 9 15 12 0 0 0 None) "new.example" "example"
  = Ok (mk_DomainData "example" "new.example"
          (strftime_ymd_hms (mk_datetime 2025 9 16 0 0 0 0 None)) (-1)
          "Success" "" "-1 days").
Proof.
  apply (future_date_looks_failed (fun s => strptime_padded s "%Y-%m-%d %H:%M:%S")
           strptime_padded _ "2025-09-16 00:00:00"
           (mk_datetime 2025 9 16 0 0 0 0 None)).
  - discriminate.
  - reflexivity.
  - reflexivity.
  - vm_compute. split; [discriminate|reflexivity].
Defined.

End AgeMore.

Module ExtractMore.
Import Extract Shapes.

Lemma for_each_raises f l x :
  (∀ y, ordinary (f y)) → x ∈ l → (∃ e, f x = Raise e) →
  ∃ e, for_each f l = Raise e ∧ is_Exception e = true.
Proof.
  intros Hf Hx [e He]. induction l as [|y l IH]; [by apply elem_of_nil in Hx|].
  simpl. pose proof (Hf y) as Hy.
  apply elem_of_cons in Hx as [<-|Hx].
  - rewrite He in *. simpl in *. eauto.
  - destruct (f y) as [us|e']; simpl in *; [|eauto].
    destruct (IH Hx) as (e'' & -> & ?). simpl. eauto.
Qed.

Lemma scalar_entry_raises x :
  is_scalar x = true →
  (∃ e, results_entry x = Raise e) ∧ (∃ e, organic_entry x = Raise e).
Proof. destruct x; try done; intros _; split; simpl; eauto. Qed.

Section WithUrlparse.

Variable str_lower : string → string.
Variable netloc_of : string → option string.

(** One entry that is a bare number, boolean or null, under [results] or
    under [organic], voids the whole extraction: the result is the empty
    set, whatever the other entries hold. *)
Theorem scalar_entry_voids_extraction kv key l x :
  key = "results" ∨ key = "organic" →
  Dyn.assoc key kv = Some (JArr l) →
  x ∈ l → is_scalar x = true →
  extract_domains str_lower netloc_of (JObj kv) = Ok ∅.
Proof.
  intros Hkey Hl Hx Hs. unfold extract_domains.
  destruct (negb (Dyn.truthy (JObj kv))); [done|].
  assert (Hraise : ∃ e, collect_urls (JObj kv) = Raise e ∧ is_Exception e = true).
  { destruct (scalar_entry_raises x Hs) as [Hr Ho].
    unfold collect_urls.
    pose proof (ExtractFacts.ordinary_collect_key "results" results_entry (JObj kv)
                  ExtractFacts.ordinary_results_entry) as H1.
    destruct Hkey as [-> | ->].
    - unfold collect_key at 1. simpl. rewrite Hl. simpl.
      destruct (for_each_raises results_entry l x
                  ExtractFacts.ordinary_results_entry Hx Hr) as (e & -> & He).
      simpl. eauto.
    - destruct (collect_key "results" results_entry (JObj kv)) as [a|e];
        simpl in *; [|eauto].
      unfold collect_key. simpl. rewrite Hl. simpl.
      destruct (for_each_raises organic_entry l x
                  ExtractFacts.ordinary_organic_entry Hx Ho) as (e & -> & He).
      simpl. eauto. }
  destruct Hraise as (e & -> & He). simpl. by rewrite He.
Qed.

(** For two responses of the expected shape, the result is the same when
    the same URLs are scanned: neither the order of the entries nor a
    repeated entry matters. *)
Theorem extraction_ignores_order kv kv' rs os rs' os' :
  field_objects "results" kv = Some rs →
  field_objects "organic" kv = Some os →
  field_objects "results" kv' = Some rs' →
  field_objects "organic" kv' = Some os' →
  (∀ u, u ∈ flat_map entry_url_or_link rs ++ flat_map entry_url os
        ↔ u ∈ flat_map entry_url_or_link rs' ++ flat_map entry_url os') →
  kv ≠ [] → kv' ≠ [] →
  extract_domains str_lower netloc_of (JObj kv) = extract_domains str_lower netloc_of (JObj kv').
Proof.
  intros Hr Ho Hr' Ho' Hsame Hkv Hkv'. unfold extract_domains.
  destruct kv as [|p kv0]; [done|]. destruct kv' as [|p' kv0']; [done|].
  cbn [Dyn.truthy negb]. unfold collect_urls.
  rewrite (ExtractFacts.collect_key_objects _ _ _ _ Hr),
          (ExtractFacts.collect_key_objects _ _ _ _ Ho),
          (ExtractFacts.collect_key_objects _ _ _ _ Hr'),
          (ExtractFacts.collect_key_objects _ _ _ _ Ho').
  rewrite !ExtractFacts.for_each_results, !ExtractFacts.for_each_organic. simpl.
  destruct (ExtractFacts.add_urls_spec str_lower netloc_of
              (flat_map entry_url_or_link rs ++ flat_map entry_url os) ∅)
    as (D & -> & HD).
  destruct (ExtractFacts.add_urls_spec str_lower netloc_of
              (flat_map entry_url_or_link rs' ++ flat_map entry_url os') ∅)
    as (D' & -> & HD').
  simpl. f_equal. apply set_eq. intros d. rewrite HD, HD'.
  split; intros [?|(u & Hu & Ha)]; auto; right; exists u; split; auto;
    by apply Hsame.
Qed.

End WithUrlparse.

Lemma scalar_entry_voids_extraction_witness :
  extract_domains Str.lower Urllib.netloc (JObj one_bad_entry) = Ok ∅.
Proof.
  apply (scalar_entry_voids_extraction Str.lower Urllib.netloc one_bad_entry "results"
           [JObj [("url", JStr "https://www.python.org/")]; JNum 404;
            JObj [("url", JStr "https://docs.rs/")]] (JNum 404)).
  - by left.
  - reflexivity.
  - apply elem_of_cons. right. apply elem_of_cons. by left.
  - reflexivity.
Defined.

Lemma extraction_ignores_order_witness :
  extract_domains Str.lower Urllib.netloc
    (JObj [("results", JArr [JObj [("url", JStr "http://a.com/")];
                             JObj [("link", JStr "http://b.org/")]])])
  = extract_domains Str.lower Urllib.netloc
      (JObj [("organic", JArr [JObj [("url", JStr "http://b.org/")];
                               JObj [("url", JStr "http://a.com/")];
                               JObj [("url", JStr "http://b.org/")]])]).
Proof.
  apply (extraction_ignores_order Str.lower Urllib.netloc _ _
           [[("url", JStr "http://a.com/")]; [("link", JStr "http://b.org/")]] []
           [] [[("url", JStr "http://b.org/")]; [("url", JStr "http://a.com/")];
               [("url", JStr "http://b.org/")]]);
    try reflexivity; try discriminate.
  intros u. cbn. rewrite !elem_of_cons, !elem_of_nil. tauto.
Defined.

End ExtractMore.

Module ResearchMore.
Import Age Extract Research Passes.

Lemma slice_to_length {A} (n : Z) (l : list A) :
  0 <= n → (length (slice_to n l) ≤ Z.to_nat n)%nat.
Proof.
  intros Hn. unfold slice_to. destruct (Z.leb_spec 0 n); [|lia].
  rewrite length_take. lia.
Qed.

Section WithLibraries.

Variable str_lower : string → string.
Variable netloc_of : string → option string.
Variable date_parser_parse : string → option datetime.
Variable strptime : string → string → option datetime.
Variable set_order : gset string → list string.

(** What one undisturbed pass appends. *)
Lemma iteration_block env max_domains_per_keyword k results :
  undisturbed env →
  ∃ block,
    keyword_iteration str_lower netloc_of date_parser_parse strptime set_order
      env max_domains_per_keyword k results = (results ++ block, None)
    ∧ Forall (fun r => keyword r = k) block
    ∧ (0 <= max_domains_per_keyword →
       (length block ≤ Z.to_nat (Z.max 1 max_domains_per_keyword))%nat).
Proof.
  intros Hu. pose proof Hu as (Hc & Hp & Hd & Hs & Hw).
  unfold keyword_iteration, keyword_body. rewrite !Hc, Hp.
  destruct (search env) as [sr|e]; simpl in Hs.
  2:{ rewrite Hs. eexists [_]. split; [done|]. split; [by repeat constructor|].
      simpl. lia. }
  destruct (Dyn.truthy sr); simpl.
  2:{ eexists [_]. split; [done|]. split; [by repeat constructor|]. simpl. lia. }
  destruct (ResearchFacts.extract_domains_returns str_lower netloc_of sr) as (domains & ->).
  destruct (bool_decide (domains = ∅)).
  { eexists [_]. split; [done|]. split; [by repeat constructor|]. simpl. lia. }
  set (selected := slice_to max_domains_per_keyword (set_order domains)).
  rewrite (ResearchFacts.no_task_cancelled env selected Hc).
  assert (Hrec : ∃ records,
             Forall2 (fun d r =>
                        process_domain_with_semaphore date_parser_parse strptime
                          env d k = Ok r ∧ keyword r = k) selected records).
  { induction selected as [|d sel (records & IH)]; [exists []; constructor|].
    destruct (ResearchFacts.task_outcome date_parser_parse strptime env d k Hu)
      as (r & Hr & Hk & _).
    exists (r :: records). by constructor. }
  destruct Hrec as (records & Hrec). exists records.
  rewrite (ResearchFacts.append_gathered_all k _ records results).
  - split; [done|]. split.
    + clear -Hrec. induction Hrec as [|???? [_ ?]]; by constructor.
    + intros Hmax. rewrite <- (Forall2_length _ _ _ Hrec).
      pose proof (slice_to_length max_domains_per_keyword (set_order domains) Hmax).
      fold selected in H. lia.
  - clear -Hrec. induction Hrec as [|???? [? _]]; simpl; by constructor.
Qed.

Lemma loop_blocks envs max_domains_per_keyword keywords : ∀ i results,
  (∀ j, undisturbed (envs j)) →
  ∃ blocks,
    keywords_loop str_lower netloc_of date_parser_parse strptime set_order
      envs i keywords max_domains_per_keyword results
    = (results ++ concat blocks, None)
    ∧ Forall2 (fun k block =>
                 Forall (fun r => keyword r = k) block
                 ∧ (0 <= max_domains_per_keyword →
                    (length block ≤ Z.to_nat (Z.max 1 max_domains_per_keyword))%nat))
              keywords blocks.
Proof.
  induction keywords as [|k rest IH]; intros i results Hu.
  - exists []. simpl. by rewrite app_nil_r.
  - simpl.
    destruct (iteration_block (envs i) max_domains_per_keyword k results (Hu i))
      as (block & -> & Hb & Hlen).
    destruct (IH (S i) (results ++ block) Hu) as (blocks & -> & Hbs).
    exists (block :: blocks). simpl. rewrite app_assoc. split; [done|].
    by constructor.
Qed.

(** An undisturbed call returns the records keyword by keyword, in the
    order of submission: the list is made of one block per keyword, each
    block holding records of its keyword only, and at most
    [max(1, max_domains_per_keyword)] of them when that number is not
    negative. *)
Theorem research_keywords_in_order envs keywords max_domains_per_keyword :
  (∀ i, undisturbed (envs i)) →
  ∃ blocks,
    research_keywords str_lower netloc_of date_parser_parse strptime set_order
      envs false (Ok tt) keywords max_domains_per_keyword
    = Ok (concat blocks)
    ∧ Forall2 (fun k block =>
                 Forall (fun r => keyword r = k) block
                 ∧ (0 <= max_domains_per_keyword →
                    (length block ≤ Z.to_nat (Z.max 1 max_domains_per_keyword))%nat))
              keywords blocks.
Proof.
  intros Hu. unfold research_keywords.
  destruct (loop_blocks envs max_domains_per_keyword keywords 0%nat [] Hu)
    as (blocks & -> & Hb).
  exists blocks. by split.
Qed.

(** A pass that finds the event set when it begins appends nothing and
    leaves the loop with [CancelledError], and so does the whole call:
    nothing is searched and no list is returned. *)
Theorem cancelled_before_keyword envs final_cancelled final_progress k rest
    max_domains_per_keyword results :
  cancelled_at (envs 0%nat) AtKeywordStart = true →
  keyword_iteration str_lower netloc_of date_parser_parse strptime set_order
    (envs 0%nat) max_domains_per_keyword k results
  = (results, Some cancelled)
  ∧ research_keywords str_lower netloc_of date_parser_parse strptime set_order
      envs final_cancelled final_progress (k :: rest) max_domains_per_keyword
    = Raise cancelled.
Proof.
  intros Hc.
  assert (H : ∀ results,
             keyword_iteration str_lower netloc_of date_parser_parse strptime set_order
               (envs 0%nat) max_domains_per_keyword k results
             = (results, Some cancelled)).
  { intros rs. unfold keyword_iteration, keyword_body. by rewrite Hc. }
  split; [apply H|]. unfold research_keywords. simpl. by rewrite H.
Qed.

(** When the event is set after the tasks of a keyword were created and
    before they run, every task ends in [CancelledError]; the handler that
    re-raises it calls [done()] on a coroutine, and the pass ends with one
    record tagged with that [AttributeError] instead of leaving the loop. *)
Theorem cancelled_tasks_become_keyword_error env max_domains_per_keyword k results
    search_results domains d selected :
  cancelled_at env AtKeywordStart = false →
  cancelled_at env AfterSearch = false →
  (∀ d, cancelled_at env (BeforeTask d) = false) →
  (∀ d, cancelled_at env (AtTaskStart d) = true) →
  progress env = Ok tt →
  search env = Ok search_results →
  Dyn.truthy search_results = true →
  extract_domains str_lower netloc_of search_results = Ok domains →
  domains ≠ ∅ →
  slice_to max_domains_per_keyword (set_order domains) = d :: selected →
  keyword_iteration str_lower netloc_of date_parser_parse strptime set_order
    env max_domains_per_keyword k results
  = (results ++ [DomainData5 k "N/A" "N/A" (-1)
                   "Keyword Error: 'coroutine' object has no attribute 'done'"],
     None).
Proof.
  intros H1 H2 H3 H4 Hp Hs Ht He Hd Hsel.
  unfold keyword_iteration, keyword_body.
  rewrite H1, Hp, Hs, H2, Ht, He. simpl.
  rewrite bool_decide_eq_false_2 by done. rewrite Hsel.
  assert (Hex : existsb (fun d => cancelled_at env (BeforeTask d)) (d :: selected)
                = false).
  { apply not_true_iff_false. intros Hex.
    apply existsb_exists in Hex as (x & _ & Hx). by rewrite H3 in Hx. }
  rewrite Hex. simpl. unfold process_domain_with_semaphore at 1. rewrite H4. simpl. done.
Qed.

End WithLibraries.

Lemma research_keywords_in_order_witness :
  ∃ blocks,
    research_keywords Str.lower Urllib.netloc parse_gives_up strptime_padded elements
      (fun _ => two_domains_pass) false (Ok tt) ["nike"; "puma"] 1
    = Ok (concat blocks)
    ∧ Forall2 (fun k block =>
                 Forall (fun r => keyword r = k) block
                 ∧ (0 <= 1 → (length block ≤ Z.to_nat (Z.max 1 1))%nat))
              ["nike"; "puma"] blocks.
Proof.
  apply (research_keywords_in_order Str.lower Urllib.netloc parse_gives_up strptime_padded
           elements (fun _ => two_domains_pass) ["nike"; "puma"] 1).
  intros _. apply ResearchFacts.two_domains_undisturbed.
Defined.

Lemma cancelled_before_keyword_witness :
  keyword_iteration Str.lower Urllib.netloc parse_gives_up strptime_padded elements
    cancelled_from_start 5 "nike" []
  = ([], Some cancelled)
  ∧ research_keywords Str.lower Urllib.netloc parse_gives_up strptime_padded elements
      (fun _ => cancelled_from_start) false (Ok tt) ["nike"; "puma"] 5
    = Raise cancelled.
Proof.
  apply (cancelled_before_keyword Str.lower Urllib.netloc parse_gives_up strptime_padded
           elements (fun _ => cancelled_from_start)).
  reflexivity.
Defined.

Lemma cancelled_tasks_become_keyword_error_witness :
  keyword_iteration Str.lower Urllib.netloc parse_gives_up strptime_padded elements
    cancelled_at_task_start 5 "nike" []
  = ([DomainData5 "nike" "N/A" "N/A" (-1)
        "Keyword Error: 'coroutine' object has no attribute 'done'"], None).
Proof.
  apply (cancelled_tasks_become_keyword_error Str.lower Urllib.netloc parse_gives_up
           strptime_padded elements cancelled_at_task_start 5 "nike" []
           (JObj [("results", JArr [JObj [("url", JStr "https://www.nike.com/")]])])
           {[ "nike.com" ]} "nike.com" []); try reflexivity; try done.
Defined.

End ResearchMore.

Module RegistryFacts.
Import App Registry.

Lemma run_snoc evs : ∀ reg t e,
  run reg (evs ++ [(t, e)])
  = match run reg evs with Some r => step t r e | None => None end.
Proof.
  induction evs as [|[t0 e0] evs IH]; intros reg t e; simpl.
  - by destruct (step t reg e).
  - destruct (step t0 reg e0); [apply IH|done].
Qed.

Lemma step_new_entry t reg e reg' id :
  step t reg e = Some reg' →
  research_tasks reg !! id = None →
  research_tasks reg' !! id = None
  ∨ ∃ n, research_tasks reg' !! id
         = Some (mk_task "starting" 0 n "" [] None t false None None).
Proof.
  intros Hs Hj. destruct e as [tid n m|tid|tid c msg|tid|tid o|tid| |]; simpl in Hs.
  - destruct (research_tasks reg !! tid) eqn:E1; [done|].
    destruct (research_task_objects reg !! tid) eqn:E2; [done|].
    injection Hs as <-. simpl. rewrite lookup_insert.
    destruct (decide (tid = id)); [right; eauto|by left].
  - destruct (research_task_objects reg !! tid) as [[n m| |]|] eqn:E;
      try discriminate; injection Hs as <-; [|by left].
    simpl. rewrite lookup_alter. destruct (decide (tid = id)) as [->|]; [|by left].
    rewrite Hj. by left.
  - destruct (research_task_objects reg !! tid) as [[n m| |]|] eqn:E;
      try discriminate; injection Hs as <-; [|by left].
    simpl. rewrite lookup_alter. destruct (decide (tid = id)) as [->|]; [|by left].
    rewrite Hj. by left.
  - destruct (research_task_objects reg !! tid) as [[n m| |]|] eqn:E;
      try discriminate; injection Hs as <-; [|by left].
    simpl. rewrite lookup_alter. destruct (decide (tid = id)) as [->|]; [|by left].
    rewrite Hj. by left.
  - destruct (research_task_objects reg !! tid) as [[n m| |]|] eqn:E;
      try discriminate; injection Hs as <-; [|by left].
    simpl. rewrite lookup_alter. destruct (decide (tid = id)) as [->|]; [|by left].
    rewrite Hj. by left.
  - injection Hs as <-. simpl. rewrite lookup_alter.
    destruct (decide (tid = id)) as [->|]; [|by left]. rewrite Hj. by left.
  - injection Hs as <-. rewrite AppFacts.cleanup_tasks, Hj. by left.
  - injection Hs as <-. simpl. rewrite AppFacts.cleanup_tasks, Hj. by left.
Qed.

(** Only the sweep removes an entry, and only an expired one. *)
Lemma step_removes t reg e reg' id j :
  step t reg e = Some reg' →
  research_tasks reg !! id = Some j →
  research_tasks reg' !! id = None →
  (e = Cleanup ∨ e = HealthCheck) ∧ expired t j = true.
Proof.
  intros Hs Hj Hn. destruct e as [tid n m|tid|tid c msg|tid|tid o|tid| |]; simpl in Hs.
  - destruct (research_tasks reg !! tid) eqn:E1; [done|].
    destruct (research_task_objects reg !! tid) eqn:E2; [done|].
    injection Hs as <-. simpl in Hn. rewrite lookup_insert in Hn.
    destruct (decide (tid = id)); congruence.
  - destruct (research_task_objects reg !! tid) as [[n m| |]|] eqn:E;
      try discriminate; injection Hs as <-; [|congruence].
    simpl in Hn. rewrite lookup_alter in Hn.
    destruct (decide (tid = id)) as [->|]; [|congruence]. by rewrite Hj in Hn.
  - destruct (research_task_objects reg !! tid) as [[n m| |]|] eqn:E;
      try discriminate; injection Hs as <-; [|congruence].
    simpl in Hn. rewrite lookup_alter in Hn.
    destruct (decide (tid = id)) as [->|]; [|congruence]. by rewrite Hj in Hn.
  - destruct (research_task_objects reg !! tid) as [[n m| |]|] eqn:E;
      try discriminate; injection Hs as <-; [|congruence].
    simpl in Hn. rewrite lookup_alter in Hn.
    destruct (decide (tid = id)) as [->|]; [|congruence]. by rewrite Hj in Hn.
  - destruct (research_task_objects reg !! tid) as [[n m| |]|] eqn:E;
      try discriminate; injection Hs as <-; [|congruence].
    simpl in Hn. rewrite lookup_alter in Hn.
    destruct (decide (tid = id)) as [->|]; [|congruence]. by rewrite Hj in Hn.
  - injection Hs as <-. simpl in Hn. rewrite lookup_alter in Hn.
    destruct (decide (tid = id)) as [->|]; [|congruence]. by rewrite Hj in Hn.
  - injection Hs as <-. rewrite AppFacts.cleanup_tasks, Hj in Hn.
    destruct (expired t j); [auto|done].
  - injection Hs as <-. simpl in Hn. rewrite AppFacts.cleanup_tasks, Hj in Hn.
    destruct (expired t j); [auto|done].
Qed.

Lemma set_status_cancelled j :
  status j = "cancelled" → error j = Some "Task cancelled by user" →
  set_status "cancelled" (Some "Task cancelled by user") j = j.
Proof. destruct j. simpl. by intros -> ->. Qed.

Lemma step_message_kept t reg e reg' :
  cancel_message_kept reg → step t reg e = Some reg' → cancel_message_kept reg'.
Proof.
  intros Hk Hs id j' Hj' Hst.
  destruct (research_tasks reg !! id) as [j|] eqn:Hj.
  - specialize (Hk id j Hj).
    destruct (AppFacts.step_entry t reg e reg' id j Hs Hj)
      as [Hn|[Hsame|[(n & m & _ & Hb)|[(c & msg & _ & Hb)|[(_ & Hb)
          |[(o & _ & _ & Hb)|Hcan]]]]]].
    + congruence.
    + rewrite Hsame in Hj'. injection Hj' as <-. auto.
    + rewrite Hb in Hj'. injection Hj' as <-. done.
    + rewrite Hb in Hj'. injection Hj' as <-. unfold progress_callback in *.
      destruct (cancelled_event j); simpl in *; auto.
    + rewrite Hb in Hj'. injection Hj' as <-. unfold domain_progress_callback in *.
      destruct (cancelled_event j); simpl in *; auto.
    + rewrite Hb in Hj'. injection Hj' as <-. unfold finish in *.
      destruct o as [rs| |m]; destruct (cancelled_event j); simpl in *; done.
    + rewrite Hcan in Hj'. injection Hj' as <-. unfold cancel in *.
      destruct (String.eqb (status j) "running"); simpl in *; auto.
  - destruct (step_new_entry t reg e reg' id Hs Hj) as [Hn|(n & Hnew)].
    + congruence.
    + rewrite Hnew in Hj'. injection Hj' as <-. done.
Qed.

Lemma run_message_kept evs : ∀ reg reg',
  cancel_message_kept reg → run reg evs = Some reg' → cancel_message_kept reg'.
Proof.
  induction evs as [|[t e] evs IH]; intros reg reg' Hk Hr; simpl in Hr.
  - by injection Hr as <-.
  - destruct (step t reg e) as [reg1|] eqn:Es; [|done].
    eapply IH; [|done]. by eapply step_message_kept.
Qed.

Lemma empty_message_kept : cancel_message_kept empty.
Proof. intros id j Hj. unfold empty in Hj. simpl in Hj. by rewrite lookup_empty in Hj. Qed.

(** Terminal states are final for the entry: once a job is [completed],
    [error] or [cancelled], no step changes its entry, whether the callbacks
    of its coroutine run on, the coroutine ends, or it is cancelled again;
    the entry stays as it is until a sweep finds it expired and deletes
    it. *)
Theorem terminal_entry_is_frozen evs reg t e reg' task_id j :
  run empty evs = Some reg →
  step t reg e = Some reg' →
  research_tasks reg !! task_id = Some j →
  is_terminal (status j) = true →
  research_tasks reg' !! task_id = Some j
  ∨ research_tasks reg' !! task_id = None
    ∧ (e = Cleanup ∨ e = HealthCheck) ∧ expired t j = true.
Proof.
  intros Hrun Hstep Hj Hterm.
  pose proof (AppFacts.run_consistent evs _ _ AppFacts.consistent_empty Hrun) as Hc.
  pose proof (run_message_kept evs _ _ empty_message_kept Hrun task_id j Hj) as Hmsg.
  destruct (AppFacts.entry_coherent reg task_id j Hc Hj) as (co & Hco & Hcoh).
  destruct (AppFacts.step_entry t reg e reg' task_id j Hstep Hj)
    as [Hn|[Hsame|[(n & m & Hp & Hb)|[(c & msg & Hp & Hb)|[(Hp & Hb)
        |[(o & _ & Hp & Hb)|Hcan]]]]]].
  - right. split; [done|]. by eapply step_removes.
  - by left.
  - rewrite Hco in Hp. injection Hp as ->. destruct Hcoh as (E & _).
    rewrite E in Hterm. discriminate.
  - rewrite Hco in Hp. injection Hp as ->. left. rewrite Hb. f_equal.
    destruct Hcoh as (_ & [[E _]|[_ Ev]]); [rewrite E in Hterm; discriminate|].
    unfold progress_callback. by rewrite Ev.
  - rewrite Hco in Hp. injection Hp as ->. left. rewrite Hb. f_equal.
    destruct Hcoh as (_ & [[E _]|[_ Ev]]); [rewrite E in Hterm; discriminate|].
    unfold domain_progress_callback. by rewrite Ev.
  - rewrite Hco in Hp. injection Hp as ->. left. rewrite Hb. f_equal.
    destruct Hcoh as (_ & [[E _]|[E Ev]]); [rewrite E in Hterm; discriminate|].
    unfold finish. rewrite Ev.
    destruct o; simpl; by apply set_status_cancelled; auto.
  - left. rewrite Hcan. f_equal. unfold cancel.
    destruct (String.eqb_spec (status j) "running") as [E|_]; [|done].
    rewrite E in Hterm. discriminate.
Qed.

Lemma terminal_entry_is_frozen_witness :
  ∃ reg reg' j,
    run empty cancelled_job = Some reg
    ∧ step (seconds 4) reg
        (Finish "job-2" (Returned [DomainData5 "nike" "N/A" "N/A" (-1) "Search Failed"]))
      = Some reg'
    ∧ research_tasks reg !! "job-2" = Some j
    ∧ status j = "cancelled"
    ∧ research_tasks reg' !! "job-2" = Some j.
Proof.
  destruct (run empty cancelled_job) as [reg|] eqn:Hr; [|by vm_compute in Hr].
  destruct (step (seconds 4) reg
              (Finish "job-2" (Returned [DomainData5 "nike" "N/A" "N/A" (-1)
                                           "Search Failed"]))) as [reg'|] eqn:Hs.
  2:{ vm_compute in Hr. injection Hr as <-. by vm_compute in Hs. }
  destruct (research_tasks reg !! "job-2") as [j|] eqn:Hj.
  2:{ vm_compute in Hr. injection Hr as <-. by vm_compute in Hj. }
  assert (Hst : status j = "cancelled").
  { vm_compute in Hr. injection Hr as <-. vm_compute in Hj. by injection Hj as <-. }
  exists reg, reg', j. repeat split; try done.
  destruct (terminal_entry_is_frozen _ _ _ _ _ _ _ Hr Hs Hj) as [H|(_ & [H|H] & _)];
    [by rewrite Hst|done|discriminate H|discriminate H].
Defined.

(** The two dictionaries of the registry always have the same keys: every
    job has its task object, and the sweep leaves no task object behind. *)
Theorem registry_keys_agree evs reg :
  run empty evs = Some reg →
  dom (research_tasks reg) = dom (research_task_objects reg).
Proof.
  intros Hrun.
  pose proof (AppFacts.run_consistent evs _ _ AppFacts.consistent_empty Hrun) as Hc.
  apply set_eq. intros id. rewrite !elem_of_dom. specialize (Hc id).
  destruct (research_tasks reg !! id), (research_task_objects reg !! id);
    split; intros [? ?]; try done; eauto.
Qed.

Lemma registry_keys_agree_witness :
  ∃ reg, run empty long_job = Some reg
         ∧ dom (research_tasks reg) = dom (research_task_objects reg).
Proof.
  destruct (run empty long_job) as [reg|] eqn:Hr; [|by vm_compute in Hr].
  exists reg. split; [done|]. by apply (registry_keys_agree long_job).
Defined.

Lemma expired_later t1 t2 j : t1 <= t2 → expired t1 j = true → expired t2 j = true.
Proof.
  unfold expired, total_seconds_gt. rewrite !andb_true_iff, !Z.ltb_lt.
  intros ? [? ?]. split; [done|lia].
Qed.

Lemma registry_eq r1 r2 :
  research_tasks r1 = research_tasks r2 →
  research_task_objects r1 = research_task_objects r2 → r1 = r2.
Proof. destruct r1, r2. simpl. by intros -> ->. Qed.

(** A sweep that follows an earlier sweep leaves the registry as it would
    alone: a second sweep at the same instant changes nothing. *)
Theorem sweep_after_sweep t1 t2 reg :
  t1 <= t2 →
  cleanup_old_tasks t2 (cleanup_old_tasks t1 reg) = cleanup_old_tasks t2 reg.
Proof.
  intros Ht. apply registry_eq; apply map_eq; intros id.
  - rewrite !AppFacts.cleanup_tasks.
    destruct (research_tasks reg !! id) as [j|]; [|done].
    destruct (expired t1 j) eqn:E1; [|done].
    by rewrite (expired_later t1 t2 j Ht E1).
  - rewrite !AppFacts.cleanup_objects, !AppFacts.cleanup_tasks.
    destruct (research_tasks reg !! id) as [j|]; [|done].
    destruct (expired t1 j) eqn:E1; [|done].
    by rewrite (expired_later t1 t2 j Ht E1).
Qed.

Lemma sweep_after_sweep_witness :
  cleanup_old_tasks (seconds 7201)
    (cleanup_old_tasks (seconds 3000) Endpoints.one_completed)
  = cleanup_old_tasks (seconds 7201) Endpoints.one_completed.
Proof. apply sweep_after_sweep. unfold seconds. lia. Defined.

(** The rows that [get_results] serves are a list that the research call of
    that job returned: the run holds the end of [run_research] on exactly
    that list. *)
Theorem served_results_were_returned evs : ∀ reg task_id rs,
  run empty evs = Some reg →
  get_results reg task_id = Some (Some rs) →
  ∃ t, (t, Finish task_id (Returned rs)) ∈ evs.
Proof.
  induction evs as [|[t e] evs IH] using rev_ind; intros reg id rs Hrun Hget.
  - injection Hrun as <-. unfold get_results, empty in Hget. simpl in Hget.
    by rewrite lookup_empty in Hget.
  - rewrite run_snoc in Hrun.
    destruct (run empty evs) as [reg0|] eqn:Hr0; [|done].
    assert (Hold : get_results reg0 id = Some (Some rs) →
                   ∃ t0, (t0, Finish id (Returned rs)) ∈ evs ++ [(t, e)]).
    { intros H. destruct (IH reg0 id rs eq_refl H) as [t0 Ht0].
      exists t0. apply elem_of_app. by left. }
    unfold get_results in Hget.
    destruct (research_tasks reg !! id) as [j'|] eqn:Hj'; [|done].
    destruct (String.eqb_spec (status j') "completed") as [Hst|]; [|done].
    injection Hget as <-.
    destruct (research_tasks reg0 !! id) as [j|] eqn:Hj.
    + destruct (AppFacts.step_entry t reg0 e reg id j Hrun Hj)
        as [Hn|[Hsame|[(n & m & _ & Hb)|[(c & msg & _ & Hb)|[(_ & Hb)
            |[(o & -> & _ & Hb)|Hcan]]]]]].
      * congruence.
      * apply Hold. unfold get_results. rewrite Hj.
        rewrite Hsame in Hj'. injection Hj' as <-. by rewrite Hst.
      * rewrite Hb in Hj'. injection Hj' as <-. done.
      * rewrite Hb in Hj'. injection Hj' as <-. apply Hold.
        unfold get_results. rewrite Hj. unfold progress_callback in *.
        destruct (cancelled_event j); simpl in *; by rewrite Hst.
      * rewrite Hb in Hj'. injection Hj' as <-. apply Hold.
        unfold get_results. rewrite Hj. unfold domain_progress_callback in *.
        destruct (cancelled_event j); simpl in *; by rewrite Hst.
      * rewrite Hb in Hj'. injection Hj' as <-. unfold finish in *.
        destruct o as [rs'| |m]; destruct (cancelled_event j); simpl in *;
          try done.
        exists t. apply elem_of_app. right. by left.
      * rewrite Hcan in Hj'. injection Hj' as <-. unfold cancel in *.
        destruct (String.eqb (status j) "running") eqn:E; simpl in *; [done|].
        apply Hold. unfold get_results. by rewrite Hj, Hst.
    + destruct (step_new_entry t reg0 e reg id Hrun Hj) as [Hn|(n & Hnew)].
      * congruence.
      * rewrite Hnew in Hj'. injection Hj' as <-. done.
Qed.

Lemma served_results_were_returned_witness :
  ∃ t, (t, Finish "job-1" (Returned [])) ∈ long_job.
Proof.
  destruct (run empty long_job) as [reg|] eqn:Hr; [|by vm_compute in Hr].
  apply (served_results_were_returned long_job reg "job-1" [] Hr).
  vm_compute in Hr. injection Hr as <-. by vm_compute.
Defined.

End RegistryFacts.

Module UploadFacts.
Import Upload.

Example upload_sample : upload_keywords sample_file = ["nike shoes"; "puma"].
Proof. reflexivity. Qed.

Lemma rstrip_keep c s : is_space c = false → rstrip (String c s) = String c (rstrip s).
Proof. intros Hc. simpl. rewrite Hc. by destruct (rstrip s). Qed.

Lemma rstrip_idem s : rstrip (rstrip s) = rstrip s.
Proof.
  induction s as [|c s IH]; [done|]. simpl.
  destruct (rstrip s) as [|c' r] eqn:E; simpl.
  - destruct (is_space c) eqn:Ec; [done|]. simpl. by rewrite Ec.
  - simpl in IH. rewrite IH. done.
Qed.

Lemma lstrip_head s : match lstrip s with String c _ => is_space c = false | _ => True end.
Proof.
  induction s as [|c s IH]; [done|]. simpl.
  destruct (is_space c) eqn:E; [done|]. simpl. done.
Qed.

Lemma strip_idem s : strip (strip s) = strip s.
Proof.
  unfold strip. pose proof (lstrip_head s) as Hh.
  destruct (lstrip s) as [|c r]; [done|].
  rewrite (rstrip_keep c r Hh). simpl lstrip. rewrite Hh.
  rewrite <- (rstrip_keep c r Hh). apply rstrip_idem.
Qed.

Lemma all_chars_lstrip p s : all_chars p s = true → all_chars p (lstrip s) = true.
Proof.
  induction s as [|c s IH]; [done|]. simpl. intros [Hc Hs]%andb_true_iff.
  destruct (is_space c); [auto|]. simpl. by rewrite Hc, Hs.
Qed.

Lemma all_chars_rstrip p s : all_chars p s = true → all_chars p (rstrip s) = true.
Proof.
  induction s as [|c s IH]; [done|]. simpl. intros [Hc Hs]%andb_true_iff.
  specialize (IH Hs). destruct (rstrip s); simpl in *.
  - destruct (is_space c); simpl; [done|]. by rewrite Hc.
  - by rewrite Hc, IH.
Qed.

Lemma split_lines_no_newline text : Forall (fun l => no_newline l = true) (split_lines text).
Proof.
  induction text as [|c s IH]; [by repeat constructor|]. simpl.
  destruct (Ascii.eqb c nl) eqn:E; [by constructor|].
  destruct (split_lines s) as [|l ls].
  - constructor; [|constructor]. unfold no_newline. simpl. by rewrite E.
  - apply Forall_cons in IH as [Hl Hls]. constructor; [|done].
    unfold no_newline in *. simpl. by rewrite E, Hl.
Qed.

Lemma keywords_clean text :
  Forall (fun k => k ≠ "" ∧ strip k = k ∧ no_newline k = true)
         (upload_keywords text).
Proof.
  unfold upload_keywords. apply Forall_forall. intros k Hk.
  apply list_elem_of_In, filter_In in Hk as [Hk Hne].
  apply in_map_iff in Hk as (l & <- & Hl).
  split; [by destruct (strip l)|]. split; [apply strip_idem|].
  pose proof (split_lines_no_newline text) as Hall. rewrite Forall_forall in Hall.
  apply list_elem_of_In, Hall in Hl.
  unfold strip, no_newline. by apply all_chars_rstrip, all_chars_lstrip.
Qed.

(** Every keyword of the list is non-empty, has no white space at either
    end (stripping it again changes nothing) and holds no line feed. *)
Theorem upload_keywords_clean text :
  Forall (fun k => k ≠ "" ∧ strip k = k ∧ no_newline k = true)
         (upload_keywords text).
Proof.
  unfold upload_keywords. apply Forall_forall. intros k Hk.
  apply list_elem_of_In, filter_In in Hk as [Hk Hne].
  apply in_map_iff in Hk as (l & <- & Hl).
  split; [by destruct (strip l)|]. split; [apply strip_idem|].
  pose proof (split_lines_no_newline text) as Hall. rewrite Forall_forall in Hall.
  apply list_elem_of_In, Hall in Hl.
  unfold strip, no_newline. by apply all_chars_rstrip, all_chars_lstrip.
Qed.

Lemma split_lines_nonempty text : split_lines text ≠ [].
Proof.
  destruct text as [|c s]; [done|]. simpl.
  destruct (Ascii.eqb c nl); [done|]. by destruct (split_lines s).
Qed.

Lemma split_lines_app a b :
  split_lines (a +:+ String nl b) = split_lines a ++ split_lines b.
Proof.
  induction a as [|c a IH]; simpl.
  - reflexivity.
  - destruct (Ascii.eqb c nl); [by rewrite IH|]. rewrite IH.
    pose proof (split_lines_nonempty a). by destruct (split_lines a).
Qed.

Lemma keywords_app a b :
  upload_keywords (a +:+ String nl b) = upload_keywords a ++ upload_keywords b.
Proof.
  unfold upload_keywords. by rewrite split_lines_app, map_app, List.filter_app.
Qed.

(** Lines are read one by one: the keywords of two texts joined by a line
    feed are the keywords of the first followed by those of the second. *)
Theorem upload_keywords_app a b :
  upload_keywords (a +:+ String nl b) = upload_keywords a ++ upload_keywords b.
Proof.
  unfold upload_keywords. rewrite split_lines_app.
  rewrite map_app. apply List.filter_app.
Qed.

Lemma split_lines_line s : no_newline s = true → split_lines s = [s].
Proof.
  unfold no_newline. induction s as [|c s IH]; [done|]. simpl.
  intros [Hc Hs]%andb_true_iff. apply negb_true_iff in Hc. rewrite Hc, (IH Hs). done.
Qed.

Lemma upload_keywords_line k :
  k ≠ "" → strip k = k → no_newline k = true → upload_keywords k = [k].
Proof.
  intros Hne Hs Hn. unfold upload_keywords. rewrite (split_lines_line k Hn). simpl.
  rewrite Hs. by destruct k.
Qed.

Lemma upload_join ks :
  Forall (fun k => k ≠ "" ∧ strip k = k ∧ no_newline k = true) ks →
  upload_keywords (join_lines ks) = ks.
Proof.
  induction 1 as [|k ks (Hne & Hs & Hn) Hks IH]; [done|].
  unfold join_lines in *. simpl. destruct ks as [|k' ks'].
  - by apply upload_keywords_line.
  - change (k ++ String nl "" ++ String.concat (String nl "") (k' :: ks'))%string
      with (k +:+ String nl (String.concat (String nl "") (k' :: ks'))).
    rewrite keywords_app, IH. by rewrite upload_keywords_line.
Qed.

(** Writing the keywords one per line and uploading that file gives the
    same keywords. *)
Theorem upload_keywords_round_trip text :
  upload_keywords (join_lines (upload_keywords text)) = upload_keywords text.
Proof.
  pose proof (keywords_clean text) as Hclean.
  by apply upload_join.
Qed.

End UploadFacts.

Module EndpointFacts.
Import Filter Endpoints.

Lemma filtered_are_selected results lo hi n :
  apply_advanced_filter results lo hi n ⊆+ results.
Proof.
  unfold apply_advanced_filter. rewrite <- (FilterFacts.group_by_perm results) at 2.
  induction (group_by_keyword results) as [|[k rs] g IH]; simpl; [done|].
  apply submseteq_app; [apply FilterFacts.kept_submseteq|apply IH].
Qed.

Lemma filtered_in_range results lo hi n r :
  r ∈ apply_advanced_filter results lo hi n → in_range lo hi r = true.
Proof.
  unfold apply_advanced_filter. rewrite list_elem_of_In, in_flat_map.
  intros (g & _ & Hr). by apply FilterFacts.kept_elem in Hr as (_ & ? & _).
Qed.

(** The filter endpoint answers rows only for a job that is [completed].
    The rows are a selection of the stored rows, all of them when filtering
    is off; with filtering on, each row answered has an age that is not
    [-1] and lies between [min_age] and [max_age]. *)
Theorem filter_results_answer reg request rows :
  filter_results reg request = Body rows →
  ∃ j, App.research_tasks reg !! task_id request = Some j
       ∧ App.status j = "completed"
       ∧ rows ⊆+ map to_row (App.results j)
       ∧ (enable_filtering request = false → rows = map to_row (App.results j))
       ∧ (enable_filtering request = true →
          Forall (fun row => row_age_days row ≠ -1
                             ∧ min_age request <= row_age_days row <= max_age request)
                 rows).
Proof.
  unfold filter_results.
  destruct (App.research_tasks reg !! task_id request) as [j|]; [|done].
  destruct (String.eqb_spec (App.status j) "completed") as [Hst|]; [|done].
  simpl. intros [= <-]. exists j. split; [done|]. split; [done|].
  destruct (enable_filtering request).
  - split; [apply fmap_submseteq, filtered_are_selected|]. split; [done|].
    intros _. apply Forall_forall. intros row Hrow.
    apply list_elem_of_fmap in Hrow as (r & -> & Hr).
    apply filtered_in_range in Hr. unfold in_range in Hr.
    apply andb_true_iff in Hr as [Hr H3]. apply andb_true_iff in Hr as [H1 H2].
    apply negb_true_iff, Z.eqb_neq in H1. simpl. lia.
  - split; [done|]. split; [done|]. done.
Qed.

Lemma filter_results_answer_witness :
  ∃ j, App.research_tasks one_completed !! "job-9" = Some j
       ∧ App.status j = "completed"
       ∧ map to_row (apply_advanced_filter sample 0 365 2)
         ⊆+ map to_row (App.results j).
Proof.
  destruct (filter_results_answer one_completed
              (mk_FilterRequest "job-9" 0 365 2 true)
              (map to_row (apply_advanced_filter sample 0 365 2)))
    as (j & Hj & Hst & Hsub & _); [by vm_compute|].
  exists j. by repeat split.
Defined.

(** A job that is missing is answered 404 and one that is not completed
    400, whatever the request asks. *)
Example filter_results_errors :
  filter_results one_completed (mk_FilterRequest "job-0" 0 365 1 true) = NotFound
  ∧ filter_results (App.mk_registry {[ "job-9" := App.mk_task "running" 0 2 "" [] None 0 false
                                                      (Some 0) (Some 10) ]}
                                {[ "job-9" := App.Suspended ]})
      (mk_FilterRequest "job-9" 0 365 1 false) = NotCompleted.
Proof. by vm_compute. Qed.

End EndpointFacts.

Module HealthFacts.
Import App.

Lemma running_elem (m : gmap string task) p :
  p ∈ filter (fun p => status p.2 = "running") (map_to_list m)
  ↔ m !! p.1 = Some p.2 ∧ status p.2 = "running".
Proof.
  rewrite list_elem_of_filter. destruct p as [id j]. simpl.
  rewrite elem_of_map_to_list. tauto.
Qed.

Lemma running_not_expired t j : status j = "running" → expired t j = false.
Proof. unfold expired, is_terminal. by intros ->. Qed.

(** The health probe sweeps first and then counts: [total_tasks] is the
    number of jobs the sweep left, [active_tasks] the number of running
    jobs, which the sweep does not change, and [active_tasks] never exceeds
    [total_tasks]. *)
Theorem health_check_counts t reg :
  (health_check t reg).1 = cleanup_old_tasks t reg
  ∧ (health_check t reg).2.2 = size (research_tasks (cleanup_old_tasks t reg))
  ∧ (health_check t reg).2.1
    = length (filter (fun p => status p.2 = "running")
                     (map_to_list (research_tasks reg)))
  ∧ ((health_check t reg).2.1 ≤ (health_check t reg).2.2)%nat.
Proof.
  split; [done|]. split; [done|]. split.
  - unfold health_check. cbn [fst snd]. apply Permutation_length.
    apply NoDup_Permutation.
    + apply NoDup_filter, NoDup_map_to_list.
    + apply NoDup_filter, NoDup_map_to_list.
    + intros p. rewrite !running_elem, AppFacts.cleanup_tasks.
      destruct (research_tasks reg !! p.1) as [j|] eqn:E; [|tauto].
      split.
      * intros [H Hr]. destruct (expired t j); [done|]. by injection H as ->.
      * intros [[= ->] Hr]. by rewrite (running_not_expired t _ Hr).
  - unfold health_check. cbn [fst snd].
    rewrite <- length_map_to_list. apply length_filter.
Qed.

End HealthFacts.
